(** * Vertical resampling of RAP wind/temperature grids onto flight levels

    A shallow embedding of [interpolate_uv_at_flight_levels]
    (gridded_lib.py) and [interpolate_uv_temp_at_flight_levels]
    (blueprints/gridded_lib.py), together with the NumPy routines they call.

    Numbers.  A NumPy [float64] is modelled as a real number or the
    not-a-number marker; there are no infinities, no signed zeros and no
    overflow.  Comparisons with NaN are false and arithmetic on NaN gives
    NaN, as in IEEE 754.  The two elementwise conversions of the inputs
    (Kelvin to Celsius, metres to flight levels) round every result to the
    nearest binary64 value, as the hardware does, and their literals stand
    for the nearest binary64 values ([round_binary64]).  The interpolation
    and the wind formulas are written with the exact operations on the
    reals: the statements about them say which expression the code
    evaluates and which sample it returns. *)

From Stdlib Require Import Reals Lra ZArith Lia.
From Equations Require Import Equations.
From stdpp Require Import base decidable option list gmap strings.

(** ** Floating-point values *)

Inductive f64 : Type :=
| NaN : f64
| Fin (r : R) : f64.

#[global] Instance f64_inhabited : Inhabited f64 := populate NaN.

#[global] Instance Rlt_decision : RelDecision Rlt := Rlt_dec.
#[global] Instance Rle_decision : RelDecision Rle := Rle_dec.
#[global] Instance Req_decision : EqDecision R := Req_dec_T.

Definition isnan (x : f64) : bool :=
  match x with NaN => true | Fin _ => false end.

Definition flt (a b : f64) : bool :=
  match a, b with Fin x, Fin y => bool_decide (x < y)%R | _, _ => false end.
Definition fle (a b : f64) : bool :=
  match a, b with Fin x, Fin y => bool_decide (x <= y)%R | _, _ => false end.
Definition fgt (a b : f64) : bool := flt b a.
Definition fge (a b : f64) : bool := fle b a.
Definition feq (a b : f64) : bool :=
  match a, b with Fin x, Fin y => bool_decide (x = y) | _, _ => false end.

Definition lift2 (op : R → R → R) (a b : f64) : f64 :=
  match a, b with Fin x, Fin y => Fin (op x y) | _, _ => NaN end.

Definition fadd : f64 → f64 → f64 := lift2 Rplus.
Definition fsub : f64 → f64 → f64 := lift2 Rminus.
Definition fmul : f64 → f64 → f64 := lift2 Rmult.

(** A zero divisor would give an infinity or NaN; the model has no
    infinities, and no modelled code path divides by zero (see
    [bracket_gap_pos] below for the slope of [np_interp]). *)
Definition fdiv (a b : f64) : f64 :=
  match a, b with
  | Fin x, Fin y => if decide (y = 0%R) then NaN else Fin (x / y)
  | _, _ => NaN
  end.

(** ** Exceptions *)

Inductive exn : Type :=
| IndexError   (* NumPy: index out of bounds for axis *)
| ValueError.  (* np.interp: empty sample array, or fp and xp differ in length *)

Inductive result (A : Type) : Type :=
| Ok (a : A)
| Raise (e : exn).
Arguments Ok {A} a.
Arguments Raise {A} e.

#[global] Instance result_ret : MRet result := λ A a, Ok a.
#[global] Instance result_bind : MBind result := λ A B f m,
  match m with Ok a => f a | Raise e => Raise e end.

Definition is_Ok {A} (m : result A) : Prop := ∃ a, m = Ok a.
Definition is_Raise {A} (m : result A) : Prop := ∃ e, m = Raise e.

(** [for x in l: s = body(x, s)], stopping at the first exception. *)
Fixpoint for_each {A S} (l : list A) (body : A → S → result S) (s : S)
  : result S :=
  match l with
  | [] => Ok s
  | x :: l' => s' ← body x s; for_each l' body s'
  end.

(** ** NumPy arrays *)

Abbreviation array1 := (list f64).
Abbreviation array2 A := (list (list A)).
Abbreviation array3 := (list (list (list f64))).

(** [a.shape] of a 2-D array (rows, columns of the first row). *)
Definition shape2 {A} (a : array2 A) : nat * nat :=
  (length a, match a with [] => 0 | row :: _ => length row end).

(** [np.full(shape, x)]. *)
Definition np_full {A} (shape : nat * nat) (x : A) : array2 A :=
  replicate shape.1 (replicate shape.2 x).

(** [a[i, j] = x] for in-range [i], [j]. *)
Definition set2 {A} (a : array2 A) (i j : nat) (x : A) : array2 A :=
  alter (<[j := x]>) i a.

(** [a[i, j]] read back. *)
Definition get2 {A} (a : array2 A) (i j : nat) : option A :=
  a !! i ≫= (.!! j).

(** [a[:, i, j]]: the vertical profile at a grid point.  Indexing past
    either horizontal axis raises IndexError, as does indexing a
    zero-level (hence one-dimensional) array with three subscripts. *)
Definition column (a : array3) (i j : nat) : result array1 :=
  match a with
  | [] => Raise IndexError
  | _ => match mapM (λ lvl : array2 f64, get2 lvl i j) a with
         | Some p => Ok p
         | None => Raise IndexError
         end
  end.

(** Elementwise operations ([a * c], [a - c], [a.astype(int)], ...) on
    2-D and 3-D arrays. *)
Definition map_2d {A B} (f : A → B) (a : array2 A) : array2 B :=
  fmap (M := list) (fmap (M := list) f) a.

Definition map_3d (f : f64 → f64) (a : array3) : array3 :=
  fmap (M := list) (map_2d f) a.

(** [np.any(np.isnan(p))]. *)
Definition any_isnan (p : array1) : bool := existsb isnan p.

(** [p[::-1]]. *)
Definition reversed (p : array1) : array1 := rev p.

(** ** np.interp

    Transcribed from NumPy's [arr_interp] and [binary_search_with_guess]
    (numpy/core/src/multiarray/compiled_base.c), for a scalar [x] and
    default [left]/[right].  NumPy does not check that [xp] is
    increasing; the search below is the one it runs whatever [xp] holds. *)

Definition arr_at (arr : array1) (i : Z) : f64 :=
  nth (Z.to_nat i) arr NaN.

Definition LIKELY_IN_CACHE_SIZE : Z := 8.

(** [for (i = 1; i < len && key >= arr[i]; ++i);] over the tail of [arr],
    returning the final [i]. *)
Fixpoint linear_scan (key : f64) (tl : array1) (i : Z) : Z :=
  match tl with
  | [] => i
  | a :: tl' => if fge key a then linear_scan key tl' (i + 1) else i
  end.

(** [while (imin < imax) { imid = imin + ((imax - imin) >> 1); ... }
     return imin - 1;] *)
Equations? bisect (key : f64) (arr : array1) (imin imax : Z) : Z
  by wf (Z.to_nat (imax - imin)) lt :=
  bisect key arr imin imax with Z_lt_dec imin imax => {
    | right _ => imin - 1
    | left _ with fge key (arr_at arr (imin + Z.shiftr (imax - imin) 1)) => {
        | true => bisect key arr (imin + Z.shiftr (imax - imin) 1 + 1) imax
        | false => bisect key arr imin (imin + Z.shiftr (imax - imin) 1) } }.
Proof.
  all: rewrite Z.shiftr_div_pow2 by lia; change (2 ^ 1)%Z with 2%Z;
    pose proof (Z.div_mod (imax - imin) 2 ltac:(lia));
    pose proof (Z.mod_pos_bound (imax - imin) 2 ltac:(lia)); lia.
Qed.

Definition binary_search_with_guess
  (key : f64) (arr : array1) (len guess : Z) : Z :=
  if fgt key (arr_at arr (len - 1)) then len
  else if flt key (arr_at arr 0) then (-1)%Z
  else if bool_decide (len ≤ LIKELY_IN_CACHE_SIZE)%Z then
    (linear_scan key (tail arr) 1 - 1)%Z
  else
    let guess := if bool_decide (guess > len - 3)%Z then (len - 3)%Z else guess in
    let guess := if bool_decide (guess < 1)%Z then 1%Z else guess in
    if flt key (arr_at arr guess) then
      if flt key (arr_at arr (guess - 1)) then
        let imax := (guess - 1)%Z in
        let imin :=
          if bool_decide (guess > LIKELY_IN_CACHE_SIZE)%Z
             && fge key (arr_at arr (guess - LIKELY_IN_CACHE_SIZE))
          then (guess - LIKELY_IN_CACHE_SIZE)%Z else 0%Z in
        bisect key arr imin imax
      else (guess - 1)%Z
    else if flt key (arr_at arr (guess + 1)) then guess
    else if flt key (arr_at arr (guess + 2)) then (guess + 1)%Z
    else
      let imin := (guess + 2)%Z in
      let imax :=
        if bool_decide (guess < len - LIKELY_IN_CACHE_SIZE - 1)%Z
           && flt key (arr_at arr (guess + LIKELY_IN_CACHE_SIZE))
        then (guess + LIKELY_IN_CACHE_SIZE)%Z else len in
      bisect key arr imin imax.

(** The interpolated value once the bracket index [j] is known. *)
Definition interp_at (x : f64) (dx dy : array1) (lenxp j : Z) : f64 :=
  let lval := arr_at dy 0 in
  let rval := arr_at dy (lenxp - 1) in
  if bool_decide (j = -1)%Z then lval
  else if bool_decide (j = lenxp) then rval
  else if bool_decide (j = lenxp - 1)%Z then arr_at dy j
  else if feq (arr_at dx j) x then arr_at dy j
  else
    let slope :=
      fdiv (fsub (arr_at dy (j + 1)) (arr_at dy j))
           (fsub (arr_at dx (j + 1)) (arr_at dx j)) in
    let r := fadd (fmul slope (fsub x (arr_at dx j))) (arr_at dy j) in
    if isnan r then
      let r' := fadd (fmul slope (fsub x (arr_at dx (j + 1)))) (arr_at dy (j + 1)) in
      if isnan r' && feq (arr_at dy j) (arr_at dy (j + 1)) then arr_at dy j
      else r'
    else r.

Definition np_interp (x : f64) (xp fp : array1) : result f64 :=
  let lenxp := Z.of_nat (length xp) in
  if bool_decide (lenxp = 0%Z) then Raise ValueError
  else if bool_decide (Z.of_nat (length fp) ≠ lenxp) then Raise ValueError
  else if bool_decide (lenxp = 1%Z) then
    let xp_val := arr_at xp 0 in
    let fp_val := arr_at fp 0 in
    Ok (if flt x xp_val then arr_at fp 0
        else if fgt x xp_val then arr_at fp (lenxp - 1)
        else fp_val)
  else if isnan x then Ok x
  else Ok (interp_at x xp fp lenxp (binary_search_with_guess x xp lenxp 0)).

(** ** Scalar routines of NumPy and Python *)

(** Largest integer not above [x]. *)
Definition floor (x : R) : Z := Int_part x.

(** Python's [round(x)] on a float, then [int(...)]: nearest integer,
    a tie going to the even neighbour; NaN cannot be converted
    (ValueError).  Neither can an infinity (OverflowError), which the
    model leaves out. *)
Definition round_half_even (x : R) : Z :=
  let f := floor x in
  let d := (x - IZR f)%R in
  if decide (d < 1 / 2)%R then f
  else if decide (1 / 2 < d)%R then (f + 1)%Z
  else if Z.even f then f else (f + 1)%Z.

Definition py_int_round (x : f64) : result Z :=
  match x with
  | NaN => Raise ValueError
  | Fin r => Ok (round_half_even r)
  end.

(** [a.astype(int)] on one element: truncation toward zero.  The cast of
    NaN, or of a value outside the int64 range, is undefined in C; x86-64
    NumPy stores the smallest int64. *)
Definition trunc (x : R) : Z :=
  if decide (0 <= x)%R then floor x else (- floor (- x))%Z.

Definition nan_as_int : Z := (-9223372036854775808)%Z.

Definition astype_int (x : f64) : Z :=
  match x with
  | NaN => nan_as_int
  | Fin r =>
      if decide (-9223372036854775808 < r < 9223372036854775808)%R
      then trunc r else nan_as_int
  end.

(** ** Rounding to binary64

    An IEEE 754 operation returns the exact result rounded to the nearest
    binary64 value, and a decimal literal denotes the binary64 value
    nearest to it; in both cases a tie goes to the value whose significand
    is even. *)

(** The exponent [e] of the binade [2^e <= |x| < 2^(e+1)] that holds [x],
    but not below the exponent of the smallest normal number: zero and the
    subnormal numbers share that one. *)
Definition binade (x : R) : Z :=
  if decide (x = 0%R) then (-1022)%Z
  else Z.max (-1022) (floor (ln (Rabs x) / ln 2)).

(** The distance between neighbouring binary64 values in the binade of
    [x]: a significand has 53 bits. *)
Definition ulp (x : R) : R := powerRZ 2 (binade x - 52).

(** The multiple of [ulp x] nearest to [x], a tie going to the even
    multiple.  A result beyond the largest binary64 value would be an
    infinity, which the model leaves out. *)
Definition round_binary64 (x : R) : R :=
  (IZR (round_half_even (x / ulp x)) * ulp x)%R.
#[global] Arguments round_binary64 : simpl never.

(** What an operation stores for the exact result [x]. *)
Definition fround (x : f64) : f64 :=
  match x with NaN => NaN | Fin r => Fin (round_binary64 r) end.

(** [np.sqrt]. *)
Definition fsqrt (x : f64) : f64 :=
  match x with
  | Fin r => if decide (r < 0)%R then NaN else Fin (sqrt r)
  | NaN => NaN
  end.

(** [x ** 2]. *)
Definition fsquare (x : f64) : f64 :=
  match x with Fin r => Fin (r ^ 2) | NaN => NaN end.

(** [atan2 y x] on the reals, with value in (-PI, PI]; at the origin 0. *)
Definition atan2 (y x : R) : R :=
  if decide (0 < x)%R then atan (y / x)
  else if decide (x < 0)%R then
    if decide (0 <= y)%R then (atan (y / x) + PI)%R else (atan (y / x) - PI)%R
  else if decide (0 < y)%R then (PI / 2)%R
  else if decide (y < 0)%R then (- (PI / 2))%R
  else 0%R.

(** [np.arctan2] and [np.degrees]. *)
Definition arctan2 (y x : f64) : f64 := lift2 atan2 y x.

Definition degrees (x : f64) : f64 :=
  match x with Fin r => Fin (r * (180 / PI)) | NaN => NaN end.

(** [a % b] on floats: the remainder has the sign of the divisor. *)
Definition fmod (a b : f64) : f64 :=
  match a, b with
  | Fin x, Fin y =>
      if decide (y = 0%R) then NaN else Fin (x - y * IZR (floor (x / y)))
  | _, _ => NaN
  end.

(** ** Shared set-up of both variants *)

(** [np.arange(0, 510, 10)]. *)
Definition fl_target : list Z := (λ k, 10 * Z.of_nat k)%Z <$> seq 0 51.
#[global] Arguments fl_target : simpl never.

(** [hgt_ft = hgt_3d * 3.281; fl_3d = hgt_ft / 100.0]: a binary64
    multiplication by the binary64 value of the literal, then a binary64
    division by 100.0, which is a binary64 value itself. *)
Definition to_flight_level (h : f64) : f64 :=
  let hgt_ft := fround (fmul h (fround (Fin 3.281))) in
  fround (fdiv hgt_ft (Fin 100)).

(** [t - 273.15]: a binary64 subtraction of the binary64 value of the
    literal. *)
Definition kelvin_to_celsius (t : f64) : f64 :=
  fround (fsub t (fround (Fin 273.15))).

(** [lats.shape], with [lats] taken from the first height message. *)
Definition lats_shape (hgt_3d : array3) : result (nat * nat) :=
  match hgt_3d with
  | [] => Raise IndexError
  | lvl0 :: _ => Ok (shape2 lvl0)
  end.

(** The [(i, j)] visited by [for i in range(rows): for j in range(cols):]. *)
Definition grid_points (shape : nat * nat) : list (nat * nat) :=
  i ← seq 0 shape.1; j ← seq 0 shape.2; [(i, j)].

(** ** gridded_lib.py: U and V only *)

Section uv.
Variables fl_3d u_3d v_3d : array3.

(** Lines 64-72: the values assigned to [u_interp[i, j]] and
    [v_interp[i, j]]. *)
Definition uv_point (fl : Z) (i j : nat) : result (f64 * f64) :=
  profile_fl ← column fl_3d i j;
  profile_u ← column u_3d i j;
  profile_v ← column v_3d i j;
  if any_isnan profile_fl || any_isnan profile_u || any_isnan profile_v
  then Ok (NaN, NaN)
  else
    u ← np_interp (Fin (IZR fl)) (reversed profile_fl) (reversed profile_u);
    v ← np_interp (Fin (IZR fl)) (reversed profile_fl) (reversed profile_v);
    Ok (u, v).

Definition uv_store (fl : Z) (p : nat * nat)
  (s : array2 f64 * array2 f64) : result (array2 f64 * array2 f64) :=
  '(u, v) ← uv_point fl p.1 p.2;
  Ok (set2 s.1 p.1 p.2 u, set2 s.2 p.1 p.2 v).

(** Lines 60-72 for one target level.  [np.empty_like(lats)] leaves the
    arrays uninitialised; [uninit] stands for what they hold. *)
Definition uv_level (uninit : f64) (shape : nat * nat) (fl : Z)
  : result (array2 f64 * array2 f64) :=
  for_each (grid_points shape) (uv_store fl)
           (np_full shape uninit, np_full shape uninit).

(** Line 73. *)
Definition uv_entry (s : array2 f64 * array2 f64)
  : gmap string (array2 Z) :=
  {[ "u" := map_2d astype_int s.1; "v" := map_2d astype_int s.2 ]}.

Definition uv_levels (uninit : f64) (shape : nat * nat) (fl : Z)
  (interpolated : gmap Z (gmap string (array2 Z)))
  : result (gmap Z (gmap string (array2 Z))) :=
  s ← uv_level uninit shape fl;
  Ok (<[fl := uv_entry s]> interpolated).
End uv.

Definition interpolate_uv_at_flight_levels
  (uninit : f64) (hgt_3d u_3d v_3d : array3)
  : result (gmap Z (gmap string (array2 Z))) :=
  shape ← lats_shape hgt_3d;
  let fl_3d := map_3d to_flight_level hgt_3d in
  for_each fl_target (uv_levels fl_3d u_3d v_3d uninit shape) ∅.

(** ** blueprints/gridded_lib.py: U, V and temperature, written as CSV *)

Inductive csv_kind : Type := Temp | Dir | Spd.

(** One written file [FL<fl>-<kind>.csv]; a cell is an integer or the
    empty string. *)
Record csv_file : Type := CsvFile {
  csv_fl : Z;
  csv_kind_of : csv_kind;
  csv_rows : list (list (option Z))
}.

(** [int(round(val)) if not np.isnan(val) else ''] *)
Definition csv_cell (val : f64) : option Z :=
  match val with
  | NaN => None
  | Fin r => Some (round_half_even r)
  end.

Definition write_csv (fl : Z) (k : csv_kind) (a : array2 f64) : csv_file :=
  CsvFile fl k (map_2d csv_cell a).

(** Lines 79-80. *)
Definition wind_speed (u_val v_val : f64) : f64 :=
  fsqrt (fadd (fsquare u_val) (fsquare v_val)).

Definition wind_direction (u_val v_val : f64) : f64 :=
  fmod (fsub (Fin 270) (degrees (arctan2 v_val u_val))) (Fin 360).

(** Three 2-D arrays [temp_2d], [speed_2d], [dir_2d]. *)
Record fields : Type := Fields {
  temp_2d : array2 f64;
  speed_2d : array2 f64;
  dir_2d : array2 f64
}.

Section uvt.
Variables fl_3d u_3d v_3d t_3d : array3.

(** Lines 63-85 for one grid point: [None] is the [continue] of line
    71, otherwise the three values stored at [(i, j)]. *)
Definition uvt_point (fl : Z) (i j : nat) : result (option (f64 * f64 * f64)) :=
  profile_fl ← column fl_3d i j;
  profile_u ← column u_3d i j;
  profile_v ← column v_3d i j;
  profile_t ← column t_3d i j;
  if any_isnan profile_fl || any_isnan profile_u
     || any_isnan profile_v || any_isnan profile_t
  then Ok None
  else
    u_val ← np_interp (Fin (IZR fl)) (reversed profile_fl) (reversed profile_u);
    v_val ← np_interp (Fin (IZR fl)) (reversed profile_fl) (reversed profile_v);
    t_val ← np_interp (Fin (IZR fl)) (reversed profile_fl) (reversed profile_t);
    let speed := wind_speed u_val v_val in
    let direction := wind_direction u_val v_val in
    t ← py_int_round t_val;
    s ← py_int_round speed;
    d ← py_int_round direction;
    Ok (Some (Fin (IZR t), Fin (IZR s), Fin (IZR d))).

Definition uvt_store (fl : Z) (p : nat * nat) (s : fields) : result fields :=
  c ← uvt_point fl p.1 p.2;
  match c with
  | None => Ok s
  | Some (t, sp, d) =>
      Ok (Fields (set2 (temp_2d s) p.1 p.2 t)
                 (set2 (speed_2d s) p.1 p.2 sp)
                 (set2 (dir_2d s) p.1 p.2 d))
  end.

(** Lines 56-85 for one target level. *)
Definition uvt_level (shape : nat * nat) (fl : Z) : result fields :=
  for_each (grid_points shape) (uvt_store fl)
           (Fields (np_full shape NaN) (np_full shape NaN) (np_full shape NaN)).

(** Lines 55-108: the loop over target levels, threading the files
    written so far; an exception leaves the earlier files in place. *)
Fixpoint uvt_levels (shape : nat * nat) (fls : list Z)
  (files : list csv_file) : list csv_file * result () :=
  match fls with
  | [] => (files, Ok ())
  | fl :: fls' =>
      match uvt_level shape fl with
      | Raise e => (files, Raise e)
      | Ok s =>
          uvt_levels shape fls'
            (files ++ [write_csv fl Temp (temp_2d s);
                       write_csv fl Dir (dir_2d s);
                       write_csv fl Spd (speed_2d s)])
      end
  end.
End uvt.

Definition interpolate_uv_temp_at_flight_levels
  (hgt_3d u_3d v_3d t_grbs : array3) : list csv_file * result () :=
  let t_3d := map_3d kelvin_to_celsius t_grbs in
  match lats_shape hgt_3d with
  | Raise e => ([], Raise e)
  | Ok shape =>
      let fl_3d := map_3d to_flight_level hgt_3d in
      uvt_levels fl_3d u_3d v_3d t_3d shape fl_target []
  end.

(** ** Notions used to state the properties *)

(** A 2-D array of the given [(rows, cols)]. *)
Definition has_shape {A} (shape : nat * nat) (a : array2 A) : Prop :=
  length a = shape.1 ∧ Forall (λ row, length row = shape.2) a.

(** The values a point contributes to the three arrays; a skipped point
    keeps the NaN the arrays were filled with. *)
Definition stored (c : option (f64 * f64 * f64)) : f64 * f64 * f64 :=
  match c with None => (NaN, NaN, NaN) | Some x => x end.

(** What the index search of np.interp establishes about the index [j]
    it returns, when that index is inside the array. *)
Definition bracket (key : f64) (arr : array1) (j : Z) : Prop :=
  (0 ≤ j < Z.of_nat (length arr))%Z
  ∧ fge key (arr_at arr j) = true
  ∧ ((j + 1 < Z.of_nat (length arr))%Z → flt key (arr_at arr (j + 1)) = true).

(** The direction before rounding, as the source computes it. *)
Definition direction_deg (u v : R) : R :=
  let a := (270 - atan2 v u * (180 / PI))%R in
  (a - 360 * IZR (floor (a / 360)))%R.

(** The arrays [temp_2d], [speed_2d], [dir_2d] at the end of the pass for
    target level [fl], and [u_interp], [v_interp] likewise, for the inputs
    of the two entry points. *)
Definition uvt_fields (hgt_3d u_3d v_3d t_grbs : array3) (fl : Z)
  : result fields :=
  shape ← lats_shape hgt_3d;
  uvt_level (map_3d to_flight_level hgt_3d) u_3d v_3d
            (map_3d kelvin_to_celsius t_grbs) shape fl.

Definition uv_fields (uninit : f64) (hgt_3d u_3d v_3d : array3) (fl : Z)
  : result (array2 f64 * array2 f64) :=
  shape ← lats_shape hgt_3d;
  uv_level (map_3d to_flight_level hgt_3d) u_3d v_3d uninit shape fl.

(** Strict monotonicity of a profile, in the order the levels are stored. *)
Fixpoint strictly_increasing (p : array1) : bool :=
  match p with
  | a :: (b :: _) as p' => flt a b && strictly_increasing p'
  | _ => true
  end.

Fixpoint strictly_decreasing (p : array1) : bool :=
  match p with
  | a :: (b :: _) as p' => fgt a b && strictly_decreasing p'
  | _ => true
  end.

(** A profile in which no value exceeds the one before it. *)
Fixpoint non_increasing (p : array1) : bool :=
  match p with
  | a :: (b :: _) as p' => fge a b && non_increasing p'
  | _ => true
  end.


(** A disagreement between the height grid and the other grids that a
    grid point can run into: some other grid has no cell there, or, all
    profiles there being NaN-free, another grid has a different number of
    levels than the height grid. *)
Definition mismatch_at (hgt_3d : array3) (others : list array3)
    (i j : nat) : Prop :=
  Exists (λ a, is_Raise (column a i j)) others
  ∨ (Forall (λ a, ∃ p, column a i j = Ok p ∧ any_isnan p = false)
            (hgt_3d :: others)
     ∧ Exists (λ a, ∃ ph pa, column hgt_3d i j = Ok ph
                             ∧ column a i j = Ok pa
                             ∧ length pa ≠ length ph) others).

(** A 3-D array of [levels] levels, each of the given 2-D shape. *)
Definition well_shaped (levels : nat) (shape : nat * nat) (a : array3)
  : Prop :=
  length a = levels ∧ Forall (has_shape shape) a.

(** The target level and the field a written file is named after. *)
Definition file_key (f : csv_file) : Z * csv_kind :=
  (csv_fl f, csv_kind_of f).

(** * Properties *)

(** ** The two conversions on a number *)

Lemma kelvin_to_celsius_fin (t : R) :
  kelvin_to_celsius (Fin t)
  = Fin (round_binary64 (t - round_binary64 273.15)).
Proof. reflexivity. Qed.

Lemma to_flight_level_fin (h : R) :
  to_flight_level (Fin h)
  = Fin (round_binary64 (round_binary64 (h * round_binary64 3.281) / 100)).
Proof.
  unfold to_flight_level. simpl. by rewrite decide_False by lra.
Qed.

(** ** Tactics

    [rdec] splits on the decisions in the goal and drops the branches that
    arithmetic refutes; [rsolve] settles those on closed numerals;
    [run_point] and [run_interp] evaluate the model on a concrete grid. *)

Ltac rdec :=
  repeat (first
    [ case_bool_decide;
        [try (exfalso; (lra || lia))|try (exfalso; (lra || lia))]
    | case_decide;
        [try (exfalso; (lra || lia))|try (exfalso; (lra || lia))] ]).

(** Decisions on closed numerals, settled by arithmetic. *)
Ltac rsolve :=
  repeat match goal with
  | |- context [bool_decide ?P] =>
      first [ rewrite (bool_decide_eq_true_2 P) by (lra || lia)
            | rewrite (bool_decide_eq_false_2 P) by (lra || lia) ]
  | |- context [decide ?P] =>
      first [ rewrite (decide_True (P := P)) by (lra || lia)
            | rewrite (decide_False (P := P)) by (lra || lia) ]
  end.

(** Closed integer conversions left behind by [cbn]. *)
Ltac is_closed_int t :=
  lazymatch t with
  | context [bool_decide _] => fail
  | context [decide _] => fail
  | context [IZR _] => fail
  | _ => idtac
  end.

Ltac znorm :=
  repeat match goal with
  | |- context [Z.of_nat ?n] =>
      is_closed_int n;
      let v := eval vm_compute in (Z.of_nat n) in
      progress change (Z.of_nat n) with v
  | |- context [Z.to_nat ?z] =>
      is_closed_int z;
      let v := eval vm_compute in (Z.to_nat z) in
      progress change (Z.to_nat z) with v
  end.

Ltac run_point :=
  repeat (progress (cbn -[decide bool_decide np_interp reversed wind_speed
                          wind_direction py_int_round astype_int];
                    rewrite ?to_flight_level_fin, ?kelvin_to_celsius_fin;
                    rsolve; znorm)).

Ltac run_interp :=
  unfold reversed; cbn [rev app];
  unfold np_interp, binary_search_with_guess, interp_at, LIKELY_IN_CACHE_SIZE;
  repeat (progress (cbn -[decide bool_decide wind_speed wind_direction
                          py_int_round astype_int];
                    rsolve; znorm)).

(** ** The exception monad and loops *)

Lemma bind_Ok {A B} (m : result A) (f : A → result B) (b : B) :
  m ≫= f = Ok b ↔ ∃ a, m = Ok a ∧ f a = Ok b.
Proof.
  destruct m as [a|e]; simpl; split.
  - eauto.
  - intros (a' & [= ->] & H). exact H.
  - discriminate.
  - intros (a' & [=] & _).
Qed.

Lemma bind_Raise {A B} (m : result A) (f : A → result B) (e : exn) :
  m = Raise e → m ≫= f = Raise e.
Proof. intros ->. reflexivity. Qed.

(** An invariant carried along a loop that runs to completion. *)
Lemma for_each_inv {A S} (I : list A → S → Prop) (body : A → S → result S)
    (l : list A) (s0 s' : S) :
  I [] s0 →
  (∀ done x s s1, I done s → body x s = Ok s1 → I (done ++ [x]) s1) →
  for_each l body s0 = Ok s' →
  I l s'.
Proof.
  intros H0 Hstep.
  enough (∀ done s, I done s → for_each l body s = Ok s' → I (done ++ l) s')
    as Hgen by (apply (Hgen [] s0 H0)).
  induction l as [|x l IH]; intros done s HI Hrun; simpl in Hrun.
  - injection Hrun as <-. by rewrite app_nil_r.
  - apply bind_Ok in Hrun as (s1 & Hb & Hrest).
    replace (done ++ x :: l) with ((done ++ [x]) ++ l)
      by (by rewrite <- app_assoc).
    eapply IH; [|exact Hrest]. eauto.
Qed.

(** A loop whose body fails at some element, whatever the state, fails. *)
Lemma for_each_raises {A S} (body : A → S → result S) (l : list A) (x : A) (s : S) :
  x ∈ l →
  (∀ s, is_Raise (body x s)) →
  is_Raise (for_each l body s).
Proof.
  intros Hin Hx. revert s.
  induction l as [|y l IH]; intros s; [by apply elem_of_nil in Hin|].
  simpl. destruct (body y s) as [s1|e] eqn:Hy.
  - simpl. apply elem_of_cons in Hin as [->|Hin].
    + destruct (Hx s) as [e He]. congruence.
    + by apply IH.
  - by exists e.
Qed.

(** A loop whose body succeeds everywhere runs to completion. *)
Lemma for_each_total {A S} (body : A → S → result S) (l : list A) (s : S) :
  (∀ x s, x ∈ l → is_Ok (body x s)) →
  is_Ok (for_each l body s).
Proof.
  revert s. induction l as [|y l IH]; intros s Hall; simpl.
  - by exists s.
  - destruct (Hall y s) as [s1 ->]; [by left|]. simpl.
    apply IH. intros x s2 Hx. apply Hall. by right.
Qed.

(** ** Arrays *)


Lemma np_full_shape {A} shape (x : A) : has_shape shape (np_full shape x).
Proof.
  split; [apply length_replicate|].
  apply Forall_replicate, length_replicate.
Qed.

Lemma get2_np_full {A} shape (x : A) i j :
  i < shape.1 → j < shape.2 → get2 (np_full shape x) i j = Some x.
Proof.
  intros Hi Hj. unfold get2, np_full.
  rewrite lookup_replicate_2 by done. simpl.
  by rewrite lookup_replicate_2.
Qed.

Lemma set2_shape {A} shape (a : array2 A) i j x :
  has_shape shape a → has_shape shape (set2 a i j x).
Proof.
  intros [Hl Hr]. split; unfold set2.
  - by rewrite length_alter.
  - apply Forall_lookup. intros k row Hk.
    destruct (decide (i = k)) as [->|Hne].
    + rewrite list_lookup_alter_eq in Hk.
      destruct (a !! k) as [row0|] eqn:Hk0; simplify_eq/=.
      rewrite length_insert. eapply Forall_lookup_1 in Hr; eauto.
    + rewrite list_lookup_alter_ne in Hk by done.
      eapply Forall_lookup_1 in Hr; eauto.
Qed.

Lemma get2_set2_eq {A} shape (a : array2 A) i j x :
  has_shape shape a → i < shape.1 → j < shape.2 →
  get2 (set2 a i j x) i j = Some x.
Proof.
  intros [Hl Hr] Hi Hj. unfold get2, set2.
  rewrite list_lookup_alter_eq.
  destruct (lookup_lt_is_Some_2 a i) as [row Hrow]; [lia|].
  rewrite Hrow. simpl. apply list_lookup_insert_eq.
  eapply Forall_lookup_1 in Hr; eauto. simpl in Hr. lia.
Qed.

Lemma get2_set2_ne {A} (a : array2 A) i j i' j' x :
  (i, j) ≠ (i', j') → get2 (set2 a i j x) i' j' = get2 a i' j'.
Proof.
  intros Hne. unfold get2, set2.
  destruct (decide (i = i')) as [->|Hi].
  - rewrite list_lookup_alter_eq. destruct (a !! i'); simpl; [|done].
    apply list_lookup_insert_ne. congruence.
  - by rewrite list_lookup_alter_ne.
Qed.

Lemma get2_map_2d {A B} (f : A → B) (a : array2 A) i j :
  get2 (map_2d f a) i j = f <$> get2 a i j.
Proof.
  unfold get2, map_2d.
  rewrite list_lookup_fmap. destruct (a !! i) as [row|]; simpl; [|done].
  apply list_lookup_fmap.
Qed.

Lemma map_2d_shape {A B} (f : A → B) shape (a : array2 A) :
  has_shape shape a → has_shape shape (map_2d f a).
Proof.
  intros [Hl Hr]. split; unfold map_2d; [by rewrite length_fmap|].
  apply Forall_fmap. eapply Forall_impl; [exact Hr|].
  intros row Hrow. simpl. by rewrite length_fmap.
Qed.

Lemma elem_of_grid_points shape i j :
  (i, j) ∈ grid_points shape ↔ i < shape.1 ∧ j < shape.2.
Proof.
  unfold grid_points. rewrite list_elem_of_bind. split.
  - intros (i' & Hj & Hi). apply list_elem_of_bind in Hj as (j' & Hp & Hj).
    apply list_elem_of_singleton in Hp as [= -> ->].
    apply elem_of_seq in Hi, Hj. lia.
  - intros [Hi Hj]. exists i. split; [|apply elem_of_seq; lia].
    apply list_elem_of_bind. exists j. split; [by left|apply elem_of_seq; lia].
Qed.

(** ** What one pass over the grid leaves in the arrays *)

Section uv_facts.
Variables fl_3d u_3d v_3d : array3.
Variable uninit : f64.
Variable shape : nat * nat.
Variable fl : Z.

(** A completed pass has assigned every cell of both arrays, with the
    value computed at that point. *)
Lemma uv_level_cells s :
  uv_level fl_3d u_3d v_3d uninit shape fl = Ok s →
  has_shape shape s.1 ∧ has_shape shape s.2 ∧
  ∀ i j, i < shape.1 → j < shape.2 →
    ∃ u v, uv_point fl_3d u_3d v_3d fl i j = Ok (u, v)
           ∧ get2 s.1 i j = Some u ∧ get2 s.2 i j = Some v.
Proof.
  intros Hrun.
  pose (I := λ (done : list (nat * nat)) (s : array2 f64 * array2 f64),
    has_shape shape s.1 ∧ has_shape shape s.2 ∧
    ∀ i j, (i, j) ∈ done → i < shape.1 → j < shape.2 →
      ∃ u v, uv_point fl_3d u_3d v_3d fl i j = Ok (u, v)
             ∧ get2 s.1 i j = Some u ∧ get2 s.2 i j = Some v).
  assert (I (grid_points shape) s) as (H1 & H2 & H3).
  { eapply for_each_inv; [| |exact Hrun].
    - repeat split; simpl; try apply np_full_shape.
      intros i j Hin. by apply elem_of_nil in Hin.
    - intros done [pi pj] [a1 a2] s1 (Ha1 & Ha2 & Hcells) Hst.
      unfold uv_store in Hst. simpl in *.
      apply bind_Ok in Hst as ([u v] & Hpt & [= <-]). unfold I. simpl.
      repeat split; try by apply set2_shape.
      intros i j Hin Hi Hj.
      destruct (decide ((pi, pj) = (i, j))) as [[= <- <-]|Hne].
      + exists u, v. repeat split; [done| |];
          by eapply get2_set2_eq.
      + apply elem_of_app in Hin as [Hin|Hin];
          [|apply list_elem_of_singleton in Hin; congruence].
        destruct (Hcells i j Hin Hi Hj) as (u' & v' & ? & ? & ?).
        exists u', v'. by rewrite !get2_set2_ne. }
  split; [done|split; [done|]].
  intros i j Hi Hj. apply H3; [|done..].
  by apply elem_of_grid_points.
Qed.

(** The pass fails as soon as some grid point fails. *)
Lemma uv_level_raises i j :
  i < shape.1 → j < shape.2 →
  is_Raise (uv_point fl_3d u_3d v_3d fl i j) →
  is_Raise (uv_level fl_3d u_3d v_3d uninit shape fl).
Proof.
  intros Hi Hj [e He]. unfold uv_level.
  eapply (for_each_raises _ _ (i, j)); [by apply elem_of_grid_points|].
  intros s. exists e. unfold uv_store. simpl. by rewrite He.
Qed.

(** The pass completes when every grid point does. *)
Lemma uv_level_total :
  (∀ i j, i < shape.1 → j < shape.2 →
     is_Ok (uv_point fl_3d u_3d v_3d fl i j)) →
  is_Ok (uv_level fl_3d u_3d v_3d uninit shape fl).
Proof.
  intros Hall. unfold uv_level. apply for_each_total.
  intros [i j] s Hin. apply elem_of_grid_points in Hin as [Hi Hj].
  destruct (Hall i j Hi Hj) as [[u v] Hpt].
  unfold uv_store. simpl. rewrite Hpt. simpl. by eexists.
Qed.
End uv_facts.


Section uvt_facts.
Variables fl_3d u_3d v_3d t_3d : array3.
Variable shape : nat * nat.
Variable fl : Z.

Lemma uvt_level_cells s :
  uvt_level fl_3d u_3d v_3d t_3d shape fl = Ok s →
  (has_shape shape (temp_2d s) ∧ has_shape shape (speed_2d s)
   ∧ has_shape shape (dir_2d s)) ∧
  ∀ i j, i < shape.1 → j < shape.2 →
    ∃ c, uvt_point fl_3d u_3d v_3d t_3d fl i j = Ok c
         ∧ get2 (temp_2d s) i j = Some (stored c).1.1
         ∧ get2 (speed_2d s) i j = Some (stored c).1.2
         ∧ get2 (dir_2d s) i j = Some (stored c).2.
Proof.
  intros Hrun.
  pose (I := λ (done : list (nat * nat)) (s : fields),
    (has_shape shape (temp_2d s) ∧ has_shape shape (speed_2d s)
     ∧ has_shape shape (dir_2d s)) ∧
    ∀ i j, i < shape.1 → j < shape.2 →
      if decide ((i, j) ∈ done) then
        ∃ c, uvt_point fl_3d u_3d v_3d t_3d fl i j = Ok c
             ∧ get2 (temp_2d s) i j = Some (stored c).1.1
             ∧ get2 (speed_2d s) i j = Some (stored c).1.2
             ∧ get2 (dir_2d s) i j = Some (stored c).2
      else get2 (temp_2d s) i j = Some NaN
           ∧ get2 (speed_2d s) i j = Some NaN
           ∧ get2 (dir_2d s) i j = Some NaN).
  assert (I (grid_points shape) s) as [Hsh Hcells].
  { eapply for_each_inv; [| |exact Hrun].
    - split; simpl; [repeat split; apply np_full_shape|].
      intros i j Hi Hj. by rewrite !get2_np_full.
    - intros done [pi pj] [a1 a2 a3] s1 [(Ha1 & Ha2 & Ha3) Hc] Hst.
      unfold uvt_store in Hst. unfold I. simpl in *.
      apply bind_Ok in Hst as (c & Hpt & Hst).
      assert (∀ i j, (pi, pj) ≠ (i, j) →
                get2 (temp_2d s1) i j = get2 a1 i j
                ∧ get2 (speed_2d s1) i j = get2 a2 i j
                ∧ get2 (dir_2d s1) i j = get2 a3 i j) as Hother.
      { intros i j Hne. destruct c as [[[t sp] d]|]; injection Hst as <-;
          simpl; by rewrite ?get2_set2_ne. }
      split.
      { destruct c as [[[t sp] d]|]; injection Hst as <-; simpl;
          (split; [|split]); first [done | by apply set2_shape]. }
      intros i j Hi Hj. specialize (Hc i j Hi Hj).
      destruct (decide ((pi, pj) = (i, j))) as [[= <- <-]|Hne].
      + rewrite decide_True by (apply elem_of_app; right; by left).
        exists c. split; [done|].
        destruct c as [[[t sp] d]|]; injection Hst as <-; simpl.
        * repeat split; by eapply get2_set2_eq.
        * destruct (decide ((pi, pj) ∈ done)) as [Hin|Hin]; [|done].
          destruct Hc as (c' & Hc' & ?). rewrite Hpt in Hc'.
          by injection Hc' as <-.
      + destruct (Hother i j Hne) as (-> & -> & ->).
        destruct (decide ((i, j) ∈ done)) as [Hin|Hin].
        * rewrite decide_True by (apply elem_of_app; by left). done.
        * rewrite decide_False; [done|].
          rewrite elem_of_app, list_elem_of_singleton.
          intros [?|?]; [done|congruence]. }
  split; [done|].
  intros i j Hi Hj. specialize (Hcells i j Hi Hj).
  by rewrite decide_True in Hcells by (by apply elem_of_grid_points).
Qed.

Lemma uvt_level_raises i j :
  i < shape.1 → j < shape.2 →
  is_Raise (uvt_point fl_3d u_3d v_3d t_3d fl i j) →
  is_Raise (uvt_level fl_3d u_3d v_3d t_3d shape fl).
Proof.
  intros Hi Hj [e He]. unfold uvt_level.
  eapply (for_each_raises _ _ (i, j)); [by apply elem_of_grid_points|].
  intros s. exists e. unfold uvt_store. simpl. by rewrite He.
Qed.

Lemma uvt_level_total :
  (∀ i j, i < shape.1 → j < shape.2 →
     is_Ok (uvt_point fl_3d u_3d v_3d t_3d fl i j)) →
  is_Ok (uvt_level fl_3d u_3d v_3d t_3d shape fl).
Proof.
  intros Hall. unfold uvt_level. apply for_each_total.
  intros [i j] s Hin. apply elem_of_grid_points in Hin as [Hi Hj].
  destruct (Hall i j Hi Hj) as [c Hpt].
  unfold uvt_store. simpl. rewrite Hpt. simpl.
  destruct c as [[[t sp] d]|]; by eexists.
Qed.
End uvt_facts.

(** ** Comparisons and array reads on NaN-free data *)

Lemma any_isnan_false (p : array1) :
  any_isnan p = false ↔ Forall (λ x, isnan x = false) p.
Proof.
  unfold any_isnan. induction p as [|x p IH]; simpl.
  - split; [constructor|done].
  - rewrite orb_false_iff, Forall_cons. by rewrite IH.
Qed.

Lemma any_isnan_true (p : array1) :
  any_isnan p = true ↔ NaN ∈ p.
Proof.
  unfold any_isnan. induction p as [|x p IH]; simpl.
  - split; [done|intros H; by apply elem_of_nil in H].
  - rewrite orb_true_iff, elem_of_cons, IH.
    destruct x; simpl; split; intros [?|?]; auto; discriminate.
Qed.

Lemma any_isnan_rev (p : array1) : any_isnan (rev p) = any_isnan p.
Proof.
  apply eq_iff_eq_true. rewrite !any_isnan_true, !list_elem_of_In.
  symmetry. apply in_rev.
Qed.

Lemma isnan_false (x : f64) : isnan x = false → ∃ r, x = Fin r.
Proof. destruct x; [done|eauto]. Qed.

Lemma arr_at_finite (arr : array1) (i : Z) :
  any_isnan arr = false → (0 ≤ i < Z.of_nat (length arr))%Z →
  ∃ r, arr_at arr i = Fin r.
Proof.
  intros Hfin Hi. apply isnan_false.
  apply any_isnan_false in Hfin. rewrite Forall_forall in Hfin.
  apply Hfin. unfold arr_at. apply list_elem_of_In, nth_In. lia.
Qed.

Lemma arr_at_out (arr : array1) (i : Z) :
  (Z.of_nat (length arr) ≤ i)%Z → arr_at arr i = NaN.
Proof. intros Hi. unfold arr_at. apply nth_overflow. lia. Qed.

Lemma arr_at_middle (pre tl : array1) (a : f64) :
  arr_at (pre ++ a :: tl) (Z.of_nat (length pre)) = a.
Proof. unfold arr_at. rewrite Nat2Z.id. apply nth_middle. Qed.

Lemma arr_at_rev_first (p : array1) :
  arr_at (rev p) 0 = List.last p NaN.
Proof.
  unfold arr_at. simpl. destruct p as [|a p] using rev_ind; [done|].
  rewrite rev_app_distr, last_last. reflexivity.
Qed.

Lemma arr_at_rev_last (p : array1) :
  arr_at (rev p) (Z.of_nat (length (rev p)) - 1) = hd NaN p.
Proof.
  unfold arr_at. rewrite length_rev. destruct p as [|a p]; [done|].
  simpl length. replace (Z.to_nat (Z.of_nat (S (length p)) - 1)) with (length p) by lia.
  simpl rev. rewrite <- (length_rev p). apply nth_middle.
Qed.

Lemma fge_false_flt (k : R) (a : f64) :
  isnan a = false → fge (Fin k) a = false → flt (Fin k) a = true.
Proof.
  destruct a as [|r]; [done|]. intros _. unfold fge, fle, flt.
  rewrite bool_decide_eq_false, bool_decide_eq_true. lra.
Qed.

Lemma flt_false_fge (k : R) (a : f64) :
  isnan a = false → flt (Fin k) a = false → fge (Fin k) a = true.
Proof.
  destruct a as [|r]; [done|]. intros _. unfold fge, fle, flt.
  rewrite bool_decide_eq_false, bool_decide_eq_true. lra.
Qed.

Lemma fge_flt_absurd (k : f64) (a : f64) :
  fge k a = true → flt k a = true → False.
Proof.
  destruct k as [|k], a as [|r]; try done. unfold fge, fle, flt.
  rewrite !bool_decide_eq_true. lra.
Qed.

(** ** The index search of np.interp brackets the key

    On NaN-free data the search returns [-1], [len], or an index [j]
    whose cell was compared with the key: [arr[j] <= key], and
    [key < arr[j + 1]] when that cell exists.  This holds whether or not
    [arr] is sorted. *)


Lemma linear_scan_bracket (k : R) (pre tl : array1) :
  any_isnan (pre ++ tl) = false →
  pre ≠ [] →
  fge (Fin k) (arr_at (pre ++ tl) (Z.of_nat (length pre) - 1)) = true →
  bracket (Fin k) (pre ++ tl)
          (linear_scan (Fin k) tl (Z.of_nat (length pre)) - 1).
Proof.
  revert pre. induction tl as [|a tl IH]; intros pre Hfin Hpre Hlo; simpl.
  - rewrite app_nil_r in *. unfold bracket.
    destruct pre; [done|]. simpl length in *. split; [lia|]. split; [done|lia].
  - destruct (fge (Fin k) a) eqn:Ha.
    + specialize (IH (pre ++ [a])).
      rewrite <- app_assoc, length_app in IH. simpl in IH.
      replace (Z.of_nat (length pre + 1)) with (Z.of_nat (length pre) + 1)%Z
        in IH by lia.
      apply IH; [done|by destruct pre|].
      replace (Z.of_nat (length pre) + 1 - 1)%Z with (Z.of_nat (length pre)) by lia.
      by rewrite arr_at_middle.
    + unfold bracket. rewrite length_app. simpl length.
      destruct pre as [|p0 pre]; [done|]. simpl length in *.
      split; [lia|]. split; [done|]. intros _.
      replace (Z.of_nat (S (length pre)) - 1 + 1)%Z
        with (Z.of_nat (length (p0 :: pre))) by (simpl length; lia).
      rewrite arr_at_middle. apply fge_false_flt; [|done].
      apply any_isnan_false in Hfin. rewrite Forall_forall in Hfin.
      apply Hfin. apply elem_of_app. right. by left.
Qed.

Lemma shiftr1_bounds (imin imax : Z) :
  (imin < imax)%Z →
  (imin ≤ imin + Z.shiftr (imax - imin) 1 < imax)%Z.
Proof.
  intros H. rewrite Z.shiftr_div_pow2 by lia. change (2 ^ 1)%Z with 2%Z.
  pose proof (Z.div_mod (imax - imin) 2 ltac:(lia)).
  pose proof (Z.mod_pos_bound (imax - imin) 2 ltac:(lia)). lia.
Qed.

Lemma bisect_bracket (k : R) (arr : array1) (imin imax : Z) :
  any_isnan arr = false →
  (0 ≤ imin ≤ imax)%Z → (imax ≤ Z.of_nat (length arr))%Z →
  ((imax < Z.of_nat (length arr))%Z → flt (Fin k) (arr_at arr imax) = true) →
  ((1 ≤ imin)%Z ∧ fge (Fin k) (arr_at arr (imin - 1)) = true)
  ∨ fge (Fin k) (arr_at arr imin) = true →
  bracket (Fin k) arr (bisect (Fin k) arr imin imax).
Proof.
  intros Hfin.
  remember (Z.to_nat (imax - imin)) as n eqn:Hn. revert imin imax Hn.
  induction n as [n IH] using lt_wf_ind. intros imin imax Hn Hb Hlen Hhi Hlo.
  simp bisect. destruct (Z_lt_dec imin imax) as [Hlt|Hge]; simpl.
  - pose proof (shiftr1_bounds imin imax Hlt) as Hmid.
    destruct (fge (Fin k) (arr_at arr (imin + Z.shiftr (imax - imin) 1)))
      eqn:Hcmp; simpl.
    + (* key >= arr[imid] *)
      eapply IH; [|reflexivity|..]; try done; try lia.
      left. split; [lia|].
      by replace (imin + Z.shiftr (imax - imin) 1 + 1 - 1)%Z
        with (imin + Z.shiftr (imax - imin) 1)%Z by lia.
    + (* key < arr[imid] *)
      eapply IH; [|reflexivity|..]; try done; try lia.
      intros _. apply fge_false_flt; [|done].
      destruct (arr_at_finite arr (imin + Z.shiftr (imax - imin) 1) Hfin)
        as [r ->]; [lia|done].
  - (* the loop has ended *)
    assert (imin = imax) as -> by lia.
    destruct Hlo as [[H1 Hlo]|Hlo].
    + unfold bracket. split; [lia|]. split; [done|].
      intros Hlt. replace (imax - 1 + 1)%Z with imax by lia. apply Hhi. lia.
    + exfalso. destruct (decide (imax < Z.of_nat (length arr))%Z) as [Hlt|Hge'].
      * eapply fge_flt_absurd; eauto.
      * rewrite arr_at_out in Hlo by lia. done.
Qed.

(** The three outcomes of the search, with the comparisons that select
    them. *)
Lemma binary_search_cases (k : R) (arr : array1) (guess : Z) :
  any_isnan arr = false → arr ≠ [] →
  let len := Z.of_nat (length arr) in
  let j := binary_search_with_guess (Fin k) arr len guess in
  (fgt (Fin k) (arr_at arr (len - 1)) = true ∧ j = len)
  ∨ (fgt (Fin k) (arr_at arr (len - 1)) = false
     ∧ flt (Fin k) (arr_at arr 0) = true ∧ j = (-1)%Z)
  ∨ (fgt (Fin k) (arr_at arr (len - 1)) = false
     ∧ flt (Fin k) (arr_at arr 0) = false ∧ bracket (Fin k) arr j).
Proof.
  intros Hfin Hne. cbv zeta. unfold binary_search_with_guess.
  set (len := Z.of_nat (length arr)).
  assert (1 ≤ len)%Z as Hlen1 by (subst len; destruct arr; [done|simpl; lia]).
  assert (∀ i, (0 ≤ i < len)%Z → isnan (arr_at arr i) = false) as Hat.
  { intros i Hi. by destruct (arr_at_finite arr i Hfin Hi) as [r ->]. }
  destruct (fgt (Fin k) (arr_at arr (len - 1))); [by left|].
  destruct (flt (Fin k) (arr_at arr 0)) eqn:H0; [by right; left|].
  apply flt_false_fge in H0; [|apply Hat; lia].
  right; right. split; [done|]. split; [done|].
  case_bool_decide as Hsmall.
  - (* linear search *)
    destruct arr as [|a0 tl]; [done|]. simpl tail.
    apply (linear_scan_bracket k [a0] tl); [done|done|done].
  - unfold LIKELY_IN_CACHE_SIZE in *.
    set (g1 := if bool_decide (guess > len - 3)%Z then (len - 3)%Z else guess).
    set (g := if bool_decide (g1 < 1)%Z then 1%Z else g1).
    assert (1 ≤ g ≤ len - 3)%Z as Hg.
    { subst g g1. repeat case_bool_decide; lia. }
    clearbody g. clear g1.
    destruct (flt (Fin k) (arr_at arr g)) eqn:Hcg.
    + destruct (flt (Fin k) (arr_at arr (g - 1))) eqn:Hcg1.
      * apply bisect_bracket; try done.
        -- destruct (bool_decide (g > 8)%Z) eqn:Hg8; simpl; [|lia].
           apply bool_decide_eq_true in Hg8.
           destruct (fge (Fin k) (arr_at arr (g - 8))); lia.
        -- fold len. lia.
        -- destruct (bool_decide (g > 8)%Z && fge (Fin k) (arr_at arr (g - 8)))
             eqn:Hc; [|by right].
           apply andb_true_iff in Hc as [_ Hc]. by right.
      * apply flt_false_fge in Hcg1; [|apply Hat; lia].
        unfold bracket. fold len. split; [lia|]. split; [done|]. intros _.
        by replace (g - 1 + 1)%Z with g by lia.
    + apply flt_false_fge in Hcg; [|apply Hat; lia].
      destruct (flt (Fin k) (arr_at arr (g + 1))) eqn:Hcg1.
      { unfold bracket. fold len. split; [lia|]. by split. }
      apply flt_false_fge in Hcg1; [|apply Hat; lia].
      destruct (flt (Fin k) (arr_at arr (g + 2))) eqn:Hcg2.
      { unfold bracket. fold len. split; [lia|]. split; [done|]. intros _.
        by replace (g + 1 + 1)%Z with (g + 2)%Z by lia. }
      apply flt_false_fge in Hcg2; [|apply Hat; lia].
      apply bisect_bracket; try done.
      * destruct (bool_decide (g < len - 8 - 1)%Z
                  && flt (Fin k) (arr_at arr (g + 8))) eqn:Hc; [lia|].
        fold len. lia.
      * destruct (bool_decide (g < len - 8 - 1)%Z
                  && flt (Fin k) (arr_at arr (g + 8))) eqn:Hc; [|done].
        apply andb_true_iff in Hc as [Hc _]. apply bool_decide_eq_true in Hc.
        fold len. lia.
      * destruct (bool_decide (g < len - 8 - 1)%Z
                  && flt (Fin k) (arr_at arr (g + 8))) eqn:Hc.
        -- intros _. by apply andb_true_iff in Hc as [_ Hc].
        -- fold len. lia.
      * by right.
Qed.

Lemma binary_search_bracket (k : R) (arr : array1) (guess : Z) :
  any_isnan arr = false → arr ≠ [] →
  let j := binary_search_with_guess (Fin k) arr (Z.of_nat (length arr)) guess in
  j = Z.of_nat (length arr) ∨ j = (-1)%Z ∨ bracket (Fin k) arr j.
Proof.
  intros Hfin Hne.
  destruct (binary_search_cases k arr guess Hfin Hne)
    as [[_ H]|[(_ & _ & H)|(_ & _ & H)]]; auto.
Qed.

(** The slope of [np_interp] is never computed across an empty gap. *)
Lemma bracket_gap_pos (k : R) (arr : array1) (j : Z) :
  any_isnan arr = false →
  bracket (Fin k) arr j → (j + 1 < Z.of_nat (length arr))%Z →
  ∃ a b, arr_at arr j = Fin a ∧ arr_at arr (j + 1) = Fin b
         ∧ (a <= k < b)%R.
Proof.
  intros Hfin (Hj & Hlo & Hhi) Hlt. specialize (Hhi Hlt).
  destruct (arr_at_finite arr j Hfin) as [a Ha]; [lia|].
  destruct (arr_at_finite arr (j + 1) Hfin) as [b Hb]; [lia|].
  exists a, b. rewrite Ha, Hb in *.
  unfold fge, fle in Hlo. apply bool_decide_eq_true in Hlo.
  unfold flt in Hhi. apply bool_decide_eq_true in Hhi. done.
Qed.

(** ** np.interp on NaN-free data returns a number *)

Lemma interp_at_finite (k : R) (dx dy : array1) (j : Z) :
  any_isnan dx = false → any_isnan dy = false →
  length dy = length dx → dx ≠ [] →
  j = Z.of_nat (length dx) ∨ j = (-1)%Z ∨ bracket (Fin k) dx j →
  ∃ r, interp_at (Fin k) dx dy (Z.of_nat (length dx)) j = Fin r.
Proof.
  intros Hdx Hdy Hlen Hne Hj. unfold interp_at.
  set (len := Z.of_nat (length dx)).
  assert (1 ≤ len)%Z as Hlen1 by (subst len; destruct dx; [done|simpl; lia]).
  assert (∀ i, (0 ≤ i < len)%Z → ∃ r, arr_at dy i = Fin r) as Hat.
  { intros i Hi. apply arr_at_finite; [done|]. rewrite Hlen. by fold len. }
  case_bool_decide; [apply Hat; lia|].
  case_bool_decide; [apply Hat; lia|].
  destruct Hj as [?|[?|Hbr]]; [done|done|].
  pose proof Hbr as (Hjr & _ & _). fold len in Hjr.
  case_bool_decide; [apply Hat; lia|].
  destruct (feq (arr_at dx j) (Fin k)); [apply Hat; lia|].
  destruct (bracket_gap_pos k dx j Hdx Hbr) as (a & b & -> & -> & Hab);
    [fold len; lia|].
  destruct (Hat j) as [y0 ->]; [lia|].
  destruct (Hat (j + 1)%Z) as [y1 ->]; [lia|].
  simpl. rewrite decide_False by lra. simpl. eauto.
Qed.

Lemma np_interp_finite (k : R) (xp fp : array1) :
  any_isnan xp = false → any_isnan fp = false →
  length fp = length xp → xp ≠ [] →
  ∃ r, np_interp (Fin k) xp fp = Ok (Fin r).
Proof.
  intros Hxp Hfp Hlen Hne. unfold np_interp.
  assert (1 ≤ Z.of_nat (length xp))%Z as Hlen1
    by (destruct xp; [done|simpl; lia]).
  rewrite bool_decide_eq_false_2 by lia.
  rewrite bool_decide_eq_false_2 by (rewrite Hlen; tauto).
  assert (∀ i, (0 ≤ i < Z.of_nat (length xp))%Z → ∃ r, arr_at fp i = Fin r)
    as Hat.
  { intros i Hi. apply arr_at_finite; [done|]. by rewrite Hlen. }
  case_bool_decide as H1.
  - destruct (Hat 0%Z) as [r0 Hr0]; [lia|].
    rewrite H1. change (1 - 1)%Z with 0%Z. rewrite Hr0.
    exists r0. destruct (flt _ _); [done|]. by destruct (fgt _ _).
  - simpl. destruct (interp_at_finite k xp fp
      (binary_search_with_guess (Fin k) xp (Z.of_nat (length xp)) 0))
      as [r ->]; try done; [|eauto].
    by apply binary_search_bracket.
Qed.

(** np.interp raises exactly when the sample arrays are empty or differ
    in length. *)
Lemma np_interp_raises (x : f64) (xp fp : array1) :
  is_Raise (np_interp x xp fp) ↔ xp = [] ∨ length fp ≠ length xp.
Proof.
  unfold np_interp. split.
  - intros [e He]. case_bool_decide as H0.
    { left. destruct xp; [done|simpl in H0; lia]. }
    case_bool_decide as H1; [right; lia|].
    destruct (bool_decide _); [done|]. by destruct (isnan x).
  - intros [->|Hlen]; [by exists ValueError|].
    case_bool_decide; [by exists ValueError|].
    rewrite bool_decide_eq_true_2 by lia. by exists ValueError.
Qed.

(** ** Clamping at the ends of the sample array *)

Lemma np_interp_left (k a0 : R) (xp fp : array1) :
  xp ≠ [] → length fp = length xp →
  arr_at xp 0 = Fin a0 → (k < a0)%R →
  fgt (Fin k) (arr_at xp (Z.of_nat (length xp) - 1)) = false →
  np_interp (Fin k) xp fp = Ok (arr_at fp 0).
Proof.
  intros Hne Hlen H0 Hlt Hhi. unfold np_interp.
  assert (1 ≤ Z.of_nat (length xp))%Z as Hlen1
    by (destruct xp; [done|simpl; lia]).
  rewrite bool_decide_eq_false_2 by lia.
  rewrite bool_decide_eq_false_2 by (rewrite Hlen; tauto).
  assert (flt (Fin k) (arr_at xp 0) = true) as Hflt
    by (rewrite H0; by apply bool_decide_eq_true).
  case_bool_decide; [by rewrite Hflt|]. simpl.
  unfold binary_search_with_guess. rewrite Hhi, Hflt.
  unfold interp_at. by rewrite bool_decide_eq_true_2.
Qed.

Lemma np_interp_right (k aN : R) (xp fp : array1) :
  xp ≠ [] → length fp = length xp →
  arr_at xp (Z.of_nat (length xp) - 1) = Fin aN → (aN < k)%R →
  np_interp (Fin k) xp fp = Ok (arr_at fp (Z.of_nat (length xp) - 1)).
Proof.
  intros Hne Hlen HN Hlt. unfold np_interp.
  assert (1 ≤ Z.of_nat (length xp))%Z as Hlen1
    by (destruct xp; [done|simpl; lia]).
  rewrite bool_decide_eq_false_2 by lia.
  rewrite bool_decide_eq_false_2 by (rewrite Hlen; tauto).
  assert (fgt (Fin k) (arr_at xp (Z.of_nat (length xp) - 1)) = true) as Hfgt
    by (rewrite HN; by apply bool_decide_eq_true).
  case_bool_decide as H1.
  - rewrite H1 in *. change (1 - 1)%Z with 0%Z in *. rewrite Hfgt.
    destruct (flt (Fin k) (arr_at xp 0)) eqn:Hc; [|done].
    exfalso. rewrite HN in Hc. apply bool_decide_eq_true in Hc. lra.
  - simpl. unfold binary_search_with_guess. rewrite Hfgt.
    unfold interp_at. rewrite bool_decide_eq_false_2 by lia.
    by rewrite bool_decide_eq_true_2.
Qed.

(** ** Rounding, truncation and remainders on the reals *)

Lemma floor_spec (x : R) : (IZR (floor x) <= x < IZR (floor x) + 1)%R.
Proof. unfold floor. destruct (base_Int_part x). lra. Qed.

Lemma floor_unique (x : R) (n : Z) :
  (IZR n <= x < IZR n + 1)%R → floor x = n.
Proof. intros H. unfold floor. symmetry. apply Int_part_spec. lra. Qed.

Lemma floor_IZR (n : Z) : floor (IZR n) = n.
Proof. apply floor_unique. lra. Qed.

Lemma round_half_even_IZR (n : Z) : round_half_even (IZR n) = n.
Proof.
  unfold round_half_even. rewrite floor_IZR.
  rewrite decide_True by lra. reflexivity.
Qed.


(** On a tie the even neighbour is chosen. *)
Lemma round_half_even_tie (n : Z) :
  round_half_even (IZR n + 1 / 2) = if Z.even n then n else (n + 1)%Z.
Proof.
  unfold round_half_even.
  rewrite (floor_unique (IZR n + 1 / 2) n) by lra.
  rewrite decide_False by lra. rewrite decide_False by lra. reflexivity.
Qed.

Lemma trunc_nonneg (x : R) (n : Z) :
  (0 <= IZR n)%R → (IZR n <= x < IZR n + 1)%R → trunc x = n.
Proof.
  intros Hn Hx. unfold trunc. rewrite decide_True by lra.
  by apply floor_unique.
Qed.


Lemma fmod_range (x y : R) :
  (0 < y)%R →
  (0 <= x - y * IZR (floor (x / y)) < y)%R.
Proof.
  intros Hy. pose proof (floor_spec (x / y)) as [Hlo Hhi].
  assert (x = y * (x / y))%R as Hx by (field; lra).
  split.
  - apply (Rmult_le_compat_l y) in Hlo; lra.
  - apply (Rmult_lt_compat_l y) in Hhi; lra.
Qed.

Lemma round_half_even_near (x : R) (n : Z) :
  (IZR n - 1 / 2 < x < IZR n + 1 / 2)%R → round_half_even x = n.
Proof.
  intros Hx. unfold round_half_even.
  destruct (decide (IZR n <= x)%R) as [Hle|Hgt].
  - rewrite (floor_unique x n) by lra. by rewrite decide_True by lra.
  - rewrite (floor_unique x (n - 1)) by (rewrite minus_IZR; lra).
    rewrite minus_IZR. rewrite decide_False by lra.
    rewrite decide_True by lra. lia.
Qed.

Lemma floor_ge (x : R) (n : Z) : (IZR n <= x)%R → (n ≤ floor x)%Z.
Proof.
  intros Hx. pose proof (floor_spec x) as [_ Hhi].
  destruct (Z_le_gt_dec n (floor x)) as [|Hgt]; [done|]. exfalso.
  assert (IZR (floor x) + 1 <= IZR n)%R
    by (rewrite <- plus_IZR; apply IZR_le; lia).
  lra.
Qed.

Lemma round_half_even_ge (x : R) (n : Z) :
  (IZR n <= x)%R → (n ≤ round_half_even x)%Z.
Proof.
  intros Hx. pose proof (floor_ge x n Hx). unfold round_half_even.
  repeat case_decide; try destruct (Z.even _); lia.
Qed.

Lemma round_half_even_le (x : R) (n : Z) :
  (x <= IZR n)%R → (round_half_even x ≤ n)%Z.
Proof.
  intros Hx. pose proof (floor_spec x) as [Hlo Hhi].
  assert (floor x ≤ n)%Z as Hfl by (apply le_IZR; lra).
  destruct (decide (floor x = n)) as [E|E].
  - unfold round_half_even. rewrite E in *.
    rewrite decide_True by lra. lia.
  - unfold round_half_even.
    repeat case_decide; try destruct (Z.even _); lia.
Qed.

(** ** Rounding to binary64

    Order, sign and error of [round_binary64], and its value on a number
    whose binade is known. *)

Lemma floor_mono (x y : R) : (x <= y)%R → (floor x ≤ floor y)%Z.
Proof.
  intros Hxy. apply floor_ge. pose proof (floor_spec x). lra.
Qed.

Lemma round_half_even_mono (x y : R) :
  (x <= y)%R → (round_half_even x ≤ round_half_even y)%Z.
Proof.
  intros Hxy. pose proof (floor_mono x y Hxy) as Hf.
  destruct (decide (floor x = floor y)) as [E|E].
  - unfold round_half_even. rewrite E.
    repeat case_decide; try destruct (Z.even _); try lia; exfalso; lra.
  - transitivity (floor y).
    + apply round_half_even_le. pose proof (floor_spec x) as [_ Hx].
      assert (IZR (floor x) + 1 <= IZR (floor y))%R
        by (rewrite <- plus_IZR; apply IZR_le; lia).
      lra.
    + apply round_half_even_ge. apply floor_spec.
Qed.

Lemma round_half_even_opp (x : R) :
  round_half_even (- x) = (- round_half_even x)%Z.
Proof.
  pose proof (floor_spec x) as Hf.
  destruct (decide (x = IZR (floor x))) as [E|E].
  - rewrite E, <- opp_IZR, !round_half_even_IZR. done.
  - assert (floor (- x) = (- floor x - 1)%Z) as Hn.
    { apply floor_unique. rewrite minus_IZR, opp_IZR. lra. }
    unfold round_half_even. rewrite Hn, minus_IZR, opp_IZR.
    replace (Z.even (- floor x - 1)) with (negb (Z.even (floor x))).
    2:{ replace (- floor x - 1)%Z with (- (floor x + 1))%Z by lia.
        rewrite Z.even_opp, Z.even_add. simpl.
        by destruct (Z.even (floor x)). }
    repeat case_decide; try (exfalso; lra);
      destruct (Z.even (floor x)); simpl; lia.
Qed.

Lemma ln_2_pos : (0 < ln 2)%R.
Proof. pose proof ln_lt_2. lra. Qed.

Lemma powerRZ_2_pos (e : Z) : (0 < powerRZ 2 e)%R.
Proof. apply powerRZ_lt. lra. Qed.

Lemma ln_powerRZ_2 (e : Z) : ln (powerRZ 2 e) = (IZR e * ln 2)%R.
Proof.
  rewrite powerRZ_Rpower by lra. unfold Rpower. apply ln_exp.
Qed.

Lemma powerRZ_2_lt (a b : Z) : (a < b)%Z → (powerRZ 2 a < powerRZ 2 b)%R.
Proof.
  intros Hab. rewrite !powerRZ_Rpower by lra.
  apply Rpower_lt; [lra|]. by apply IZR_lt.
Qed.

Lemma powerRZ_2_le (a b : Z) : (a ≤ b)%Z → (powerRZ 2 a <= powerRZ 2 b)%R.
Proof.
  intros Hab. destruct (decide (a = b)) as [->|Hne]; [lra|].
  left. apply powerRZ_2_lt. lia.
Qed.

Lemma powerRZ_2_nonneg (z : Z) : (0 ≤ z)%Z → powerRZ 2 z = IZR (2 ^ z).
Proof.
  intros Hz. destruct z as [|p|p]; [done| |lia].
  symmetry. apply (Zpower_pos_powerRZ 2 p).
Qed.

Lemma powerRZ_2_neg (z : Z) :
  (z < 0)%Z → powerRZ 2 z = (/ IZR (2 ^ (- z)))%R.
Proof.
  intros Hz. destruct z as [|p|p]; [lia|lia|].
  change (- Z.neg p)%Z with (Z.pos p).
  change (2 ^ Z.pos p)%Z with (Z.pow_pos 2 p).
  rewrite (Zpower_pos_powerRZ 2 p). reflexivity.
Qed.

Lemma ln_le (x y : R) : (0 < x)%R → (x <= y)%R → (ln x <= ln y)%R.
Proof.
  intros Hx [Hlt| ->]; [|lra]. left. by apply ln_increasing.
Qed.

(** The exponent of the binade of a non-zero number. *)
Lemma log2_floor_spec (x : R) :
  x ≠ 0%R →
  let e := floor (ln (Rabs x) / ln 2) in
  (powerRZ 2 e <= Rabs x < powerRZ 2 (e + 1))%R.
Proof.
  intros Hx e. pose proof ln_2_pos as H2.
  assert (0 < Rabs x)%R as Hpos by (by apply Rabs_pos_lt).
  pose proof (floor_spec (ln (Rabs x) / ln 2)) as [Hlo Hhi].
  fold e in Hlo, Hhi.
  assert (ln (Rabs x) = ln (Rabs x) / ln 2 * ln 2)%R as Hl by (field; lra).
  assert (IZR e * ln 2 <= ln (Rabs x))%R as Hlo'.
  { rewrite Hl. apply Rmult_le_compat_r; lra. }
  assert (ln (Rabs x) < IZR (e + 1) * ln 2)%R as Hhi'.
  { rewrite Hl at 1. rewrite plus_IZR. apply Rmult_lt_compat_r; lra. }
  rewrite <- !ln_powerRZ_2 in *.
  split.
  - destruct Hlo' as [Hlt|Heq].
    + left. apply ln_lt_inv; [apply powerRZ_2_pos|done|done].
    + right. apply ln_inv; [apply powerRZ_2_pos|done|done].
  - apply ln_lt_inv; [done|apply powerRZ_2_pos|done].
Qed.

Lemma log2_floor_unique (x : R) (e : Z) :
  (powerRZ 2 e <= Rabs x < powerRZ 2 (e + 1))%R →
  floor (ln (Rabs x) / ln 2) = e.
Proof.
  intros [Hlo Hhi]. pose proof ln_2_pos as H2.
  pose proof (powerRZ_2_pos e) as He.
  assert (0 < Rabs x)%R as Hpos by lra.
  apply floor_unique.
  apply ln_le in Hlo; [|done].
  apply ln_increasing in Hhi; [|done].
  rewrite ln_powerRZ_2 in Hlo, Hhi. rewrite plus_IZR in Hhi.
  split.
  - apply (Rmult_le_reg_r (ln 2)); [done|].
    replace (ln (Rabs x) / ln 2 * ln 2)%R with (ln (Rabs x)) by (field; lra).
    done.
  - apply (Rmult_lt_reg_r (ln 2)); [done|].
    replace (ln (Rabs x) / ln 2 * ln 2)%R with (ln (Rabs x)) by (field; lra).
    done.
Qed.

Lemma binade_eval (x : R) (e : Z) :
  (-1022 ≤ e)%Z →
  (powerRZ 2 e <= Rabs x < powerRZ 2 (e + 1))%R →
  binade x = e.
Proof.
  intros He Hx. unfold binade.
  pose proof (powerRZ_2_pos e).
  rewrite decide_False.
  - rewrite (log2_floor_unique x e Hx). lia.
  - intros ->. rewrite Rabs_R0 in Hx. lra.
Qed.

Lemma binade_ge (x : R) : (-1022 ≤ binade x)%Z.
Proof. unfold binade. case_decide; lia. Qed.

Lemma binade_upper (x : R) : (Rabs x < powerRZ 2 (binade x + 1))%R.
Proof.
  unfold binade. case_decide as H0.
  - subst x. rewrite Rabs_R0. apply powerRZ_2_pos.
  - pose proof (log2_floor_spec x H0) as [_ Hhi].
    set (e := floor _) in *.
    pose proof (powerRZ_2_le (e + 1) (Z.max (-1022) e + 1) ltac:(lia)). lra.
Qed.

Lemma binade_lower (x : R) :
  (-1022 < binade x)%Z → (powerRZ 2 (binade x) <= Rabs x)%R.
Proof.
  unfold binade. case_decide as H0; [lia|].
  pose proof (log2_floor_spec x H0) as [Hlo _].
  set (e := floor _) in *. intros He.
  by replace (Z.max (-1022) e) with e by lia.
Qed.

Lemma binade_opp (x : R) : binade (- x) = binade x.
Proof.
  unfold binade. rewrite Rabs_Ropp.
  destruct (decide (x = 0%R)) as [->|Hx].
  - rewrite Ropp_0. by rewrite decide_True.
  - rewrite decide_False by lra. done.
Qed.

Lemma binade_mono (x y : R) :
  (Rabs x <= Rabs y)%R → (binade x ≤ binade y)%Z.
Proof.
  intros Hxy. pose proof (binade_ge y).
  destruct (decide (x = 0%R)) as [->|Hx].
  { unfold binade at 1. by rewrite decide_True. }
  assert (0 < Rabs x)%R by (by apply Rabs_pos_lt).
  assert (y ≠ 0%R) as Hy by (intros ->; rewrite Rabs_R0 in Hxy; lra).
  unfold binade. rewrite !decide_False by done.
  apply Z.max_le_compat_l, floor_mono.
  pose proof ln_2_pos.
  apply Rmult_le_compat_r; [left; by apply Rinv_0_lt_compat|].
  by apply ln_le.
Qed.

Lemma ulp_pos (x : R) : (0 < ulp x)%R.
Proof. apply powerRZ_2_pos. Qed.

Lemma ulp_opp (x : R) : ulp (- x) = ulp x.
Proof. unfold ulp. by rewrite binade_opp. Qed.

Lemma round_binary64_opp (x : R) :
  round_binary64 (- x) = (- round_binary64 x)%R.
Proof.
  unfold round_binary64. rewrite ulp_opp.
  replace (- x / ulp x)%R with (- (x / ulp x))%R
    by (field; pose proof (ulp_pos x); lra).
  rewrite round_half_even_opp, opp_IZR. lra.
Qed.

(** Evaluation: a number in the binade of exponent [e] goes to the
    nearest multiple of [2^(e-52)]. *)
Lemma round_binary64_eval (x : R) (e m : Z) :
  (-1022 ≤ e)%Z →
  (powerRZ 2 e <= x < powerRZ 2 (e + 1))%R →
  (IZR m - 1 / 2 < x / powerRZ 2 (e - 52) < IZR m + 1 / 2)%R →
  round_binary64 x = (IZR m * powerRZ 2 (e - 52))%R.
Proof.
  intros He Hx Hm. pose proof (powerRZ_2_pos e).
  unfold round_binary64, ulp.
  rewrite (binade_eval x e He) by (rewrite Rabs_pos_eq; lra).
  by rewrite (round_half_even_near _ m Hm).
Qed.

(** A number that is a multiple of the spacing of its binade is kept. *)
Lemma round_binary64_exact (x : R) (e m : Z) :
  (-1022 ≤ e)%Z →
  (powerRZ 2 e <= x < powerRZ 2 (e + 1))%R →
  x = (IZR m * powerRZ 2 (e - 52))%R →
  round_binary64 x = x.
Proof.
  intros He Hx Hm. pose proof (powerRZ_2_pos (e - 52)).
  rewrite (round_binary64_eval x e m He Hx); [done|].
  rewrite Hm.
  replace (IZR m * powerRZ 2 (e - 52) / powerRZ 2 (e - 52))%R with (IZR m)
    by (field; lra).
  lra.
Qed.



(** Rounding keeps a non-negative number inside its closed binade. *)
Lemma round_binary64_binade (x : R) :
  (0 <= x)%R →
  (0 <= round_binary64 x <= powerRZ 2 (binade x + 1))%R
  ∧ ((-1022 < binade x)%Z → (powerRZ 2 (binade x) <= round_binary64 x)%R).
Proof.
  intros Hx. unfold round_binary64, ulp.
  set (b := binade x).
  pose proof (powerRZ_2_pos (b - 52)) as Hu.
  pose proof (binade_upper x) as Hhi. fold b in Hhi.
  rewrite Rabs_pos_eq in Hhi by done.
  assert (powerRZ 2 (b + 1) = IZR (2 ^ 53) * powerRZ 2 (b - 52))%R as E1.
  { rewrite <- (powerRZ_2_nonneg 53) by lia.
    rewrite <- powerRZ_add by lra. f_equal. lia. }
  assert (powerRZ 2 b = IZR (2 ^ 52) * powerRZ 2 (b - 52))%R as E0.
  { rewrite <- (powerRZ_2_nonneg 52) by lia.
    rewrite <- powerRZ_add by lra. f_equal. lia. }
  set (u := powerRZ 2 (b - 52)) in *.
  assert (x = x / u * u)%R as Ex by (field; lra).
  set (q := (x / u)%R) in *.
  assert (0 <= q)%R as Hq0.
  { unfold q, Rdiv. apply Rmult_le_pos; [done|].
    left. by apply Rinv_0_lt_compat. }
  assert (q <= IZR (2 ^ 53))%R as Hq1.
  { apply (Rmult_le_reg_r u); [done|]. rewrite <- Ex, <- E1. lra. }
  pose proof (round_half_even_ge q 0 Hq0) as R0.
  pose proof (round_half_even_le q _ Hq1) as R1.
  apply IZR_le in R0, R1.
  split; [split|].
  - apply Rmult_le_pos; lra.
  - rewrite E1. apply Rmult_le_compat_r; lra.
  - intros Hb. pose proof (binade_lower x Hb) as Hlo. fold b in Hlo.
    rewrite Rabs_pos_eq in Hlo by done.
    assert (IZR (2 ^ 52) <= q)%R as Hq2.
    { apply (Rmult_le_reg_r u); [done|]. rewrite <- Ex, <- E0. lra. }
    pose proof (round_half_even_ge q _ Hq2) as R2. apply IZR_le in R2.
    rewrite E0. apply Rmult_le_compat_r; lra.
Qed.

Lemma round_binary64_nonneg (x : R) : (0 <= x)%R → (0 <= round_binary64 x)%R.
Proof. intros Hx. by apply round_binary64_binade. Qed.

(** Rounding never inverts the order of two numbers. *)
Lemma round_binary64_mono (x y : R) :
  (x <= y)%R → (round_binary64 x <= round_binary64 y)%R.
Proof.
  assert (∀ a b, 0 <= a <= b → round_binary64 a <= round_binary64 b)%R
    as Hpos.
  { intros a b [Ha Hab].
    assert (binade a ≤ binade b)%Z as Hb
      by (apply binade_mono; rewrite !Rabs_pos_eq; lra).
    destruct (decide (binade a = binade b)) as [E|E].
    - unfold round_binary64, ulp. rewrite E.
      pose proof (powerRZ_2_pos (binade b - 52)) as Hu.
      apply Rmult_le_compat_r; [lra|]. apply IZR_le, round_half_even_mono.
      apply Rmult_le_compat_r; [left; by apply Rinv_0_lt_compat|done].
    - destruct (round_binary64_binade a Ha) as [[_ Hhi] _].
      destruct (round_binary64_binade b ltac:(lra)) as [_ Hlo].
      specialize (Hlo ltac:(pose proof (binade_ge a); lia)).
      pose proof (powerRZ_2_le (binade a + 1) (binade b) ltac:(lia)). lra. }
  intros Hxy.
  destruct (decide (0 <= x)%R) as [Hx|Hx]; [by apply Hpos|].
  destruct (decide (0 <= y)%R) as [Hy|Hy].
  - pose proof (round_binary64_nonneg y Hy).
    pose proof (round_binary64_nonneg (- x) ltac:(lra)) as Hn.
    rewrite round_binary64_opp in Hn. lra.
  - specialize (Hpos (- y)%R (- x)%R ltac:(lra)).
    rewrite !round_binary64_opp in Hpos. lra.
Qed.


(** Powers of two with a closed exponent, written as numerals. *)
Ltac pow2_norm :=
  repeat match goal with
  | |- context [powerRZ 2 ?z] =>
      first [ rewrite (powerRZ_2_nonneg z) by lia
            | rewrite (powerRZ_2_neg z) by lia ]
  end;
  repeat match goal with
  | |- context [(2 ^ ?k)%Z] =>
      let v := eval vm_compute in (2 ^ k)%Z in
      progress change (2 ^ k)%Z with v
  end.

(** [round_binary64 x] for a closed positive [x] of the binade of exponent
    [e], whose nearest multiple of the spacing is the [m]-th. *)
Ltac eval_binary64 e m :=
  match goal with
  | |- context [round_binary64 ?x] =>
      lazymatch x with context [round_binary64 _] => fail | _ => idtac end;
      rewrite (round_binary64_eval x e m)
        by first [lia | pow2_norm; lra];
      pow2_norm
  end.

(** The binary64 values of the two literals of the conversions. *)
Lemma literal_273_15 :
  round_binary64 273.15 = (4805305618032230 / 17592186044416)%R.
Proof. eval_binary64 8%Z 4805305618032230%Z. lra. Qed.

Lemma literal_3_281 :
  round_binary64 3.281 = (7388155188701299 / 2251799813685248)%R.
Proof. eval_binary64 1%Z 7388155188701299%Z. lra. Qed.

(** The real number 273.15 lies just above the binary64 value of the
    literal: the difference rounds to zero degrees. *)
Lemma celsius_of_273_15 :
  round_half_even (round_binary64 (273.15 - round_binary64 273.15)) = 0%Z.
Proof.
  rewrite literal_273_15. apply round_half_even_near.
  set (x := (273.15 - 4805305618032230 / 17592186044416)%R).
  assert (0 <= x <= 1 / 4)%R as [H0 H1] by (unfold x; lra).
  pose proof (round_binary64_nonneg x H0).
  pose proof (round_binary64_mono x (1 / 4) H1) as Hm.
  rewrite (round_binary64_exact (1 / 4) (-2) (2 ^ 52)) in Hm;
    [simpl; lra|lia|pow2_norm; lra|pow2_norm; lra].
Qed.




(** ** Wind speed and direction on numbers *)

Lemma wind_speed_fin (u v : R) :
  wind_speed (Fin u) (Fin v) = Fin (sqrt (u ^ 2 + v ^ 2)).
Proof.
  unfold wind_speed. simpl. rewrite decide_False; [done|].
  pose proof (pow2_ge_0 u). pose proof (pow2_ge_0 v). lra.
Qed.


Lemma wind_direction_fin (u v : R) :
  wind_direction (Fin u) (Fin v) = Fin (direction_deg u v).
Proof.
  unfold wind_direction, direction_deg. simpl.
  rewrite decide_False by lra. reflexivity.
Qed.

Lemma direction_deg_range (u v : R) : (0 <= direction_deg u v < 360)%R.
Proof. unfold direction_deg. apply fmod_range. lra. Qed.

Lemma atan2_pos_x (y x : R) : (0 < x)%R → atan2 y x = atan (y / x).
Proof. intros H. unfold atan2. by rewrite decide_True. Qed.


(** ** Vertical profiles *)

Lemma column_Ok (a : array3) i j (p : array1) :
  column a i j = Ok p → p ≠ [] ∧ length p = length a.
Proof.
  unfold column. destruct a as [|lvl a]; [done|].
  destruct (mapM _ _) as [q|] eqn:Hq; [|done]. intros [= <-].
  apply length_mapM in Hq. split; [|done].
  intros ->. simpl in Hq. lia.
Qed.

Lemma column_map_3d (f : f64 → f64) (a : array3) i j :
  column (map_3d f a) i j =
  match column a i j with Ok p => Ok (f <$> p) | Raise e => Raise e end.
Proof.
  unfold column, map_3d. destruct a as [|lvl a]; [done|].
  change (map_2d f <$> lvl :: a) with (map_2d f lvl :: (map_2d f <$> a)).
  assert (∀ l : array3,
            mapM (λ lvl : array2 f64, get2 lvl i j) (map_2d f <$> l) =
            (fmap f) <$> mapM (λ lvl : array2 f64, get2 lvl i j) l) as Hm.
  { induction l as [|x l IH]; [done|].
    rewrite fmap_cons. cbn [mapM]. rewrite IH, get2_map_2d.
    destruct (get2 x i j); [|done]. simpl.
    by destruct (mapM _ l). }
  specialize (Hm (lvl :: a)). rewrite fmap_cons in Hm. rewrite Hm.
  by destruct (mapM _ (lvl :: a)).
Qed.

Lemma any_isnan_fmap (f : f64 → f64) (p : array1) :
  (∀ x, isnan (f x) = isnan x) → any_isnan (f <$> p) = any_isnan p.
Proof.
  intros Hf. unfold any_isnan. induction p as [|x p IH]; [done|].
  rewrite fmap_cons. simpl. by rewrite Hf, IH.
Qed.

Lemma isnan_to_flight_level (h : f64) : isnan (to_flight_level h) = isnan h.
Proof. destruct h as [|r]; [done|]. by rewrite to_flight_level_fin. Qed.

Lemma isnan_kelvin_to_celsius (t : f64) : isnan (kelvin_to_celsius t) = isnan t.
Proof. by destruct t. Qed.

(** ** What a grid point contributes *)

Section point_facts.
Variables fl_3d u_3d v_3d t_3d : array3.
Variables (fl : Z) (i j : nat).
Variables profile_fl profile_u profile_v profile_t : array1.
Hypothesis Hfl : column fl_3d i j = Ok profile_fl.
Hypothesis Hu : column u_3d i j = Ok profile_u.
Hypothesis Hv : column v_3d i j = Ok profile_v.

(** A NaN in any of the three profiles: both arrays get NaN. *)
Lemma uv_point_nan :
  any_isnan profile_fl || any_isnan profile_u || any_isnan profile_v = true →
  uv_point fl_3d u_3d v_3d fl i j = Ok (NaN, NaN).
Proof.
  intros Hnan. unfold uv_point. rewrite Hfl, Hu, Hv. simpl. by rewrite Hnan.
Qed.

(** A complete point: both arrays get the interpolated numbers. *)
Lemma uv_point_complete :
  any_isnan profile_fl = false → any_isnan profile_u = false →
  any_isnan profile_v = false →
  length profile_u = length profile_fl →
  length profile_v = length profile_fl →
  ∃ u v,
    np_interp (Fin (IZR fl)) (reversed profile_fl) (reversed profile_u)
      = Ok (Fin u)
    ∧ np_interp (Fin (IZR fl)) (reversed profile_fl) (reversed profile_v)
      = Ok (Fin v)
    ∧ uv_point fl_3d u_3d v_3d fl i j = Ok (Fin u, Fin v).
Proof.
  intros Nfl Nu Nv Lu Lv.
  destruct (column_Ok _ _ _ _ Hfl) as [Hne _].
  assert (rev profile_fl ≠ []) as Hne'.
  { intros E. apply Hne. by rewrite <- (rev_involutive profile_fl), E. }
  destruct (np_interp_finite (IZR fl) (rev profile_fl) (rev profile_u))
    as [u Eu]; rewrite ?any_isnan_rev, ?length_rev; try done.
  destruct (np_interp_finite (IZR fl) (rev profile_fl) (rev profile_v))
    as [v Ev]; rewrite ?any_isnan_rev, ?length_rev; try done.
  exists u, v. unfold reversed. split; [done|]. split; [done|].
  unfold uv_point, reversed. rewrite Hfl, Hu, Hv. simpl.
  rewrite Nfl, Nu, Nv. simpl. by rewrite Eu, Ev.
Qed.

Hypothesis Ht : column t_3d i j = Ok profile_t.

(** A NaN in any of the four profiles: the point is skipped. *)
Lemma uvt_point_nan :
  any_isnan profile_fl || any_isnan profile_u
    || any_isnan profile_v || any_isnan profile_t = true →
  uvt_point fl_3d u_3d v_3d t_3d fl i j = Ok None.
Proof.
  intros Hnan. unfold uvt_point. rewrite Hfl, Hu, Hv, Ht. simpl.
  by rewrite Hnan.
Qed.

(** A complete point: the three stored values are the interpolated
    temperature, the speed and the direction, each passed through
    [int(round(...))]. *)
Lemma uvt_point_complete :
  any_isnan profile_fl = false → any_isnan profile_u = false →
  any_isnan profile_v = false → any_isnan profile_t = false →
  length profile_u = length profile_fl →
  length profile_v = length profile_fl →
  length profile_t = length profile_fl →
  ∃ u v t,
    np_interp (Fin (IZR fl)) (reversed profile_fl) (reversed profile_u)
      = Ok (Fin u)
    ∧ np_interp (Fin (IZR fl)) (reversed profile_fl) (reversed profile_v)
      = Ok (Fin v)
    ∧ np_interp (Fin (IZR fl)) (reversed profile_fl) (reversed profile_t)
      = Ok (Fin t)
    ∧ uvt_point fl_3d u_3d v_3d t_3d fl i j =
      Ok (Some (Fin (IZR (round_half_even t)),
                Fin (IZR (round_half_even (sqrt (u ^ 2 + v ^ 2)))),
                Fin (IZR (round_half_even (direction_deg u v))))).
Proof.
  intros Nfl Nu Nv Nt Lu Lv Lt.
  destruct (column_Ok _ _ _ _ Hfl) as [Hne _].
  assert (rev profile_fl ≠ []) as Hne'.
  { intros E. apply Hne. by rewrite <- (rev_involutive profile_fl), E. }
  destruct (np_interp_finite (IZR fl) (rev profile_fl) (rev profile_u))
    as [u Eu]; rewrite ?any_isnan_rev, ?length_rev; try done.
  destruct (np_interp_finite (IZR fl) (rev profile_fl) (rev profile_v))
    as [v Ev]; rewrite ?any_isnan_rev, ?length_rev; try done.
  destruct (np_interp_finite (IZR fl) (rev profile_fl) (rev profile_t))
    as [t Et]; rewrite ?any_isnan_rev, ?length_rev; try done.
  exists u, v, t. unfold reversed. do 3 (split; [done|]).
  unfold uvt_point, reversed. rewrite Hfl, Hu, Hv, Ht. simpl.
  rewrite Nfl, Nu, Nv, Nt. simpl. rewrite Eu, Ev, Et. simpl.
  by rewrite wind_speed_fin, wind_direction_fin.
Qed.
End point_facts.

(** ** The loop over target levels *)

Lemma elem_of_fl_target_0 : 0%Z ∈ fl_target.
Proof. by left. Qed.

Lemma elem_of_fl_target_150 : 150%Z ∈ fl_target.
Proof.
  unfold fl_target. apply list_elem_of_fmap. exists 15. split; [done|].
  apply elem_of_seq. lia.
Qed.

Lemma fl_target_head : ∃ rest, fl_target = 0%Z :: rest.
Proof. by eexists. Qed.

Section uv_run.
Variables (uninit : f64) (hgt_3d u_3d v_3d : array3).

(** The returned dictionary holds, under every target level, the
    integer casts of that level's arrays, and nothing else. *)
Lemma uv_run_entries m :
  interpolate_uv_at_flight_levels uninit hgt_3d u_3d v_3d = Ok m →
  ∀ fl,
    if decide (fl ∈ fl_target)
    then ∃ s, uv_fields uninit hgt_3d u_3d v_3d fl = Ok s
              ∧ m !! fl = Some (uv_entry s)
    else m !! fl = None.
Proof.
  unfold interpolate_uv_at_flight_levels, uv_fields.
  intros Hrun. apply bind_Ok in Hrun as (shape & -> & Hrun).
  cbn [mbind result_bind].
  pose (I := λ (done : list Z) (m : gmap Z (gmap string (array2 Z))),
    ∀ fl, if decide (fl ∈ done)
          then ∃ s, uv_level (map_3d to_flight_level hgt_3d) u_3d v_3d
                      uninit shape fl = Ok s
                    ∧ m !! fl = Some (uv_entry s)
          else m !! fl = None).
  apply (for_each_inv I _ _ _ _) in Hrun; [exact Hrun| |].
  - intros fl. rewrite decide_False by apply not_elem_of_nil.
    apply lookup_empty.
  - intros done fl0 m0 m1 Hm0 Hst fl. unfold uv_levels in Hst.
    apply bind_Ok in Hst as (s & Hs & [= <-]).
    destruct (decide (fl0 = fl)) as [<-|Hne].
    + rewrite decide_True by (apply elem_of_app; right; by left).
      exists s. split; [done|]. apply lookup_insert_eq.
    + rewrite lookup_insert_ne by done. specialize (Hm0 fl).
      destruct (decide (fl ∈ done)) as [Hin|Hin].
      * rewrite decide_True by (apply elem_of_app; by left). done.
      * rewrite decide_False; [done|].
        rewrite elem_of_app, list_elem_of_singleton.
        intros [?|?]; [done|congruence].
Qed.

(** The run completes when every target level's pass does. *)
Lemma uv_run_total :
  (∀ fl, fl ∈ fl_target → is_Ok (uv_fields uninit hgt_3d u_3d v_3d fl)) →
  is_Ok (interpolate_uv_at_flight_levels uninit hgt_3d u_3d v_3d).
Proof.
  unfold interpolate_uv_at_flight_levels, uv_fields. intros Hall.
  destruct (lats_shape hgt_3d) as [shape|e]; cbn [mbind result_bind] in *.
  - apply for_each_total. intros fl m Hin. unfold uv_levels.
    destruct (Hall fl Hin) as [s ->]. by eexists.
  - destruct (Hall 0%Z elem_of_fl_target_0) as [? [=]].
Qed.

(** It fails when the pass for the first target level does. *)
Lemma uv_run_raises :
  is_Raise (uv_fields uninit hgt_3d u_3d v_3d 0) →
  is_Raise (interpolate_uv_at_flight_levels uninit hgt_3d u_3d v_3d).
Proof.
  unfold interpolate_uv_at_flight_levels, uv_fields. intros [e He].
  destruct (lats_shape hgt_3d) as [shape|e'];
    cbn [mbind result_bind] in *; [|by eexists].
  destruct fl_target_head as [rest ->]. cbn [for_each].
  unfold uv_levels. rewrite He. by exists e.
Qed.
End uv_run.

Section uvt_run.
Variables fl_3d u_3d v_3d t_3d : array3.
Variable shape : nat * nat.

(** Files are only ever appended. *)
Lemma uvt_levels_prefix fls files0 files r :
  uvt_levels fl_3d u_3d v_3d t_3d shape fls files0 = (files, r) →
  files0 `prefix_of` files.
Proof.
  revert files0. induction fls as [|fl fls IH]; intros files0; simpl.
  - by intros [= <- _].
  - destruct (uvt_level _ _ _ _ _ _) as [s|e]; [|by intros [= <- _]].
    intros Hrun. apply IH in Hrun.
    etrans; [|exact Hrun]. by apply prefix_app_r.
Qed.

(** A completed run has written, for every target level, the three
    files rendered from that level's arrays. *)
Lemma uvt_levels_files fls files0 files :
  uvt_levels fl_3d u_3d v_3d t_3d shape fls files0 = (files, Ok ()) →
  ∀ fl, fl ∈ fls →
    ∃ s, uvt_level fl_3d u_3d v_3d t_3d shape fl = Ok s
         ∧ write_csv fl Temp (temp_2d s) ∈ files
         ∧ write_csv fl Dir (dir_2d s) ∈ files
         ∧ write_csv fl Spd (speed_2d s) ∈ files.
Proof.
  revert files0. induction fls as [|fl0 fls IH]; intros files0 Hrun fl Hin.
  - by apply elem_of_nil in Hin.
  - simpl in Hrun.
    destruct (uvt_level _ _ _ _ _ fl0) as [s|e] eqn:Hs; [|done].
    apply elem_of_cons in Hin as [->|Hin]; [|by eapply IH].
    exists s. split; [done|].
    apply uvt_levels_prefix in Hrun as [rest ->].
    repeat split; rewrite !elem_of_app, !elem_of_cons; tauto.
Qed.

Lemma uvt_levels_total fls files0 :
  (∀ fl, fl ∈ fls → is_Ok (uvt_level fl_3d u_3d v_3d t_3d shape fl)) →
  ∃ files, uvt_levels fl_3d u_3d v_3d t_3d shape fls files0
           = (files, Ok ()).
Proof.
  revert files0. induction fls as [|fl fls IH]; intros files0 Hall; simpl.
  - by eexists.
  - destruct (Hall fl) as [s ->]; [by left|].
    apply IH. intros fl' Hin. apply Hall. by right.
Qed.
End uvt_run.

Section uvt_top.
Variables hgt_3d u_3d v_3d t_grbs : array3.

Lemma uvt_run_files files :
  interpolate_uv_temp_at_flight_levels hgt_3d u_3d v_3d t_grbs
    = (files, Ok ()) →
  ∀ fl, fl ∈ fl_target →
    ∃ s, uvt_fields hgt_3d u_3d v_3d t_grbs fl = Ok s
         ∧ write_csv fl Temp (temp_2d s) ∈ files
         ∧ write_csv fl Dir (dir_2d s) ∈ files
         ∧ write_csv fl Spd (speed_2d s) ∈ files.
Proof.
  unfold interpolate_uv_temp_at_flight_levels, uvt_fields.
  destruct (lats_shape hgt_3d) as [shape|e]; [|done].
  cbn [mbind result_bind]. apply uvt_levels_files.
Qed.

Lemma uvt_run_total :
  (∀ fl, fl ∈ fl_target →
     is_Ok (uvt_fields hgt_3d u_3d v_3d t_grbs fl)) →
  ∃ files, interpolate_uv_temp_at_flight_levels hgt_3d u_3d v_3d t_grbs
           = (files, Ok ()).
Proof.
  unfold interpolate_uv_temp_at_flight_levels, uvt_fields. intros Hall.
  destruct (lats_shape hgt_3d) as [shape|e]; cbn [mbind result_bind] in *.
  - by apply uvt_levels_total.
  - destruct (Hall 0%Z elem_of_fl_target_0) as [? [=]].
Qed.

(** A failure in the pass for the first target level ends the run
    before any file is written. *)
Lemma uvt_run_raises :
  is_Raise (uvt_fields hgt_3d u_3d v_3d t_grbs 0) →
  ∃ e, interpolate_uv_temp_at_flight_levels hgt_3d u_3d v_3d t_grbs
       = ([], Raise e).
Proof.
  unfold interpolate_uv_temp_at_flight_levels, uvt_fields. intros [e He].
  destruct (lats_shape hgt_3d) as [shape|e'];
    cbn [mbind result_bind] in *; [|by eexists].
  destruct fl_target_head as [rest ->]. cbn [uvt_levels].
  rewrite He. by exists e.
Qed.
End uvt_top.

(** ** The arrays of one target level, for the inputs of the entry points *)

Section fields_facts.
Variables hgt_3d u_3d v_3d t_grbs : array3.
Variable fl : Z.

Lemma uvt_fields_cells s :
  uvt_fields hgt_3d u_3d v_3d t_grbs fl = Ok s →
  ∃ shape, lats_shape hgt_3d = Ok shape
    ∧ (has_shape shape (temp_2d s) ∧ has_shape shape (speed_2d s)
       ∧ has_shape shape (dir_2d s))
    ∧ ∀ i j, i < shape.1 → j < shape.2 →
        ∃ c, uvt_point (map_3d to_flight_level hgt_3d) u_3d v_3d
               (map_3d kelvin_to_celsius t_grbs) fl i j = Ok c
             ∧ get2 (temp_2d s) i j = Some (stored c).1.1
             ∧ get2 (speed_2d s) i j = Some (stored c).1.2
             ∧ get2 (dir_2d s) i j = Some (stored c).2.
Proof.
  unfold uvt_fields. intros Hrun.
  apply bind_Ok in Hrun as (shape & Hshape & Hrun).
  exists shape. split; [done|]. by apply uvt_level_cells.
Qed.

Lemma uv_fields_cells uninit s :
  uv_fields uninit hgt_3d u_3d v_3d fl = Ok s →
  ∃ shape, lats_shape hgt_3d = Ok shape
    ∧ has_shape shape s.1 ∧ has_shape shape s.2
    ∧ ∀ i j, i < shape.1 → j < shape.2 →
        ∃ u v, uv_point (map_3d to_flight_level hgt_3d) u_3d v_3d fl i j
                 = Ok (u, v)
               ∧ get2 s.1 i j = Some u ∧ get2 s.2 i j = Some v.
Proof.
  unfold uv_fields. intros Hrun.
  apply bind_Ok in Hrun as (shape & Hshape & Hrun).
  exists shape. split; [done|]. by eapply uv_level_cells.
Qed.

(** A point that fails makes the level fail. *)
Lemma uvt_fields_raises shape i j :
  lats_shape hgt_3d = Ok shape → i < shape.1 → j < shape.2 →
  is_Raise (uvt_point (map_3d to_flight_level hgt_3d) u_3d v_3d
              (map_3d kelvin_to_celsius t_grbs) fl i j) →
  is_Raise (uvt_fields hgt_3d u_3d v_3d t_grbs fl).
Proof.
  intros Hs Hi Hj Hp. unfold uvt_fields. rewrite Hs.
  cbn [mbind result_bind]. by eapply uvt_level_raises.
Qed.

Lemma uv_fields_raises uninit shape i j :
  lats_shape hgt_3d = Ok shape → i < shape.1 → j < shape.2 →
  is_Raise (uv_point (map_3d to_flight_level hgt_3d) u_3d v_3d fl i j) →
  is_Raise (uv_fields uninit hgt_3d u_3d v_3d fl).
Proof.
  intros Hs Hi Hj Hp. unfold uv_fields. rewrite Hs.
  cbn [mbind result_bind]. by eapply uv_level_raises.
Qed.
End fields_facts.

(** A point of the temperature variant with a NaN in any of its four
    profiles leaves NaN in all three arrays. *)
Lemma uvt_nan_point_missing hgt_3d u_3d v_3d t_grbs fl s shape i j :
  uvt_fields hgt_3d u_3d v_3d t_grbs fl = Ok s →
  lats_shape hgt_3d = Ok shape → i < shape.1 → j < shape.2 →
  (∃ p, (column hgt_3d i j = Ok p ∨ column u_3d i j = Ok p
         ∨ column v_3d i j = Ok p ∨ column t_grbs i j = Ok p)
        ∧ any_isnan p = true) →
  get2 (temp_2d s) i j = Some NaN
  ∧ get2 (speed_2d s) i j = Some NaN
  ∧ get2 (dir_2d s) i j = Some NaN.
Proof.
  intros Hrun Hshape Hi Hj (p & Hcol & Hnan).
  apply uvt_fields_cells in Hrun as (shape' & Hshape' & _ & Hcells).
  rewrite Hshape in Hshape'. injection Hshape' as <-.
  destruct (Hcells i j Hi Hj) as (c & Hc & Ht & Hs & Hd).
  enough (c = None) as -> by done.
  unfold uvt_point in Hc. rewrite !column_map_3d in Hc.
  destruct (column hgt_3d i j) as [ph|] eqn:Eh; [|done].
  destruct (column u_3d i j) as [pu|] eqn:Eu; [|done].
  destruct (column v_3d i j) as [pv|] eqn:Ev; [|done].
  destruct (column t_grbs i j) as [pt|] eqn:Et; [|done].
  cbn [mbind result_bind] in Hc.
  rewrite (any_isnan_fmap _ _ isnan_to_flight_level) in Hc.
  rewrite (any_isnan_fmap _ _ isnan_kelvin_to_celsius) in Hc.
  assert (any_isnan ph || any_isnan pu || any_isnan pv || any_isnan pt = true)
    as Hany.
  { destruct Hcol as [H|[H|[H|H]]]; injection H as ->; rewrite Hnan;
      by rewrite ?orb_true_r. }
  rewrite Hany in Hc. by injection Hc as <-.
Qed.

(** C10: in the temperature variant a NaN anywhere in the temperature
    profile of a grid point is enough to leave the wind speed, the wind
    direction and the temperature missing at that point, at every target
    level, whatever the height, U and V profiles hold; the three CSV cells
    are empty. *)
Theorem temperature_nan_blanks_wind
    hgt_3d u_3d v_3d t_grbs fl s shape i j profile_t :
  uvt_fields hgt_3d u_3d v_3d t_grbs fl = Ok s →
  lats_shape hgt_3d = Ok shape → i < shape.1 → j < shape.2 →
  column t_grbs i j = Ok profile_t →
  any_isnan profile_t = true →
  (get2 (speed_2d s) i j = Some NaN
   ∧ get2 (dir_2d s) i j = Some NaN
   ∧ get2 (temp_2d s) i j = Some NaN)
  ∧ (get2 (csv_rows (write_csv fl Spd (speed_2d s))) i j = Some None
     ∧ get2 (csv_rows (write_csv fl Dir (dir_2d s))) i j = Some None
     ∧ get2 (csv_rows (write_csv fl Temp (temp_2d s))) i j = Some None).
Proof.
  intros Hrun Hshape Hi Hj Ht Hnan.
  destruct (uvt_nan_point_missing _ _ _ _ _ _ _ i j Hrun Hshape Hi Hj)
    as (H1 & H2 & H3); [exists profile_t; tauto|].
  split; [done|]. unfold write_csv. simpl.
  by rewrite !get2_map_2d, H1, H2, H3.
Qed.

(** ** Evaluating the model on concrete grids *)

(** A single-level profile interpolates to its only value. *)
Lemma np_interp_single (x a b : f64) : np_interp x [a] [b] = Ok b.
Proof.
  unfold np_interp. run_point.
  destruct (flt x a); [done|]. by destruct (fgt x a).
Qed.

Lemma temperature_nan_blanks_wind_witness :
  let s := Fields [[NaN]] [[NaN]] [[NaN]] in
  uvt_fields [[[Fin 0]]] [[[Fin 1]]] [[[Fin 1]]] [[[NaN]]] 150 = Ok s
  ∧ get2 (speed_2d s) 0 0 = Some NaN
  ∧ get2 (dir_2d s) 0 0 = Some NaN
  ∧ get2 (temp_2d s) 0 0 = Some NaN.
Proof.
  assert (uvt_fields [[[Fin 0]]] [[[Fin 1]]] [[[Fin 1]]] [[[NaN]]] 150
          = Ok (Fields [[NaN]] [[NaN]] [[NaN]])) as Hrun.
  { unfold uvt_fields. run_point. reflexivity. }
  split; [exact Hrun|].
  exact (proj1 (temperature_nan_blanks_wind
    [[[Fin 0]]] [[[Fin 1]]] [[[Fin 1]]] [[[NaN]]] 150
    (Fields [[NaN]] [[NaN]] [[NaN]]) (1, 1) 0 0 [NaN]
    Hrun eq_refl (Nat.lt_0_succ 0) (Nat.lt_0_succ 0) eq_refl eq_refl)).
Defined.

Lemma np_interp_Ok_length (x y : f64) (xp fp : array1) :
  np_interp x xp fp = Ok y → length fp = length xp ∧ xp ≠ [].
Proof.
  intros H.
  destruct (decide (xp = [])) as [->|Hne]; [done|].
  destruct (decide (length fp = length xp)) as [Hl|Hl]; [done|].
  assert (is_Raise (np_interp x xp fp)) as [e He]
    by (apply np_interp_raises; by right).
  congruence.
Qed.

(** ** Complete points of the temperature variant *)

Section complete_point.
Variables hgt_3d u_3d v_3d t_grbs : array3.
Variables (fl : Z) (s : fields) (shape : nat * nat) (i j : nat).
Variables profile_h profile_u profile_v profile_t : array1.
Hypothesis Hrun : uvt_fields hgt_3d u_3d v_3d t_grbs fl = Ok s.
Hypothesis Hshape : lats_shape hgt_3d = Ok shape.
Hypothesis Hi : i < shape.1.
Hypothesis Hj : j < shape.2.
Hypothesis Hh : column hgt_3d i j = Ok profile_h.
Hypothesis Hu : column u_3d i j = Ok profile_u.
Hypothesis Hv : column v_3d i j = Ok profile_v.
Hypothesis Ht : column t_grbs i j = Ok profile_t.
Hypothesis Nh : any_isnan profile_h = false.
Hypothesis Nu : any_isnan profile_u = false.
Hypothesis Nv : any_isnan profile_v = false.
Hypothesis Nt : any_isnan profile_t = false.

(** The three stored values at a complete point of a completed pass. *)
Lemma uvt_fields_complete :
  let profile_fl := to_flight_level <$> profile_h in
  ∃ u v t,
    np_interp (Fin (IZR fl)) (reversed profile_fl) (reversed profile_u)
      = Ok (Fin u)
    ∧ np_interp (Fin (IZR fl)) (reversed profile_fl) (reversed profile_v)
      = Ok (Fin v)
    ∧ np_interp (Fin (IZR fl)) (reversed profile_fl)
        (reversed (kelvin_to_celsius <$> profile_t)) = Ok (Fin t)
    ∧ get2 (temp_2d s) i j = Some (Fin (IZR (round_half_even t)))
    ∧ get2 (speed_2d s) i j
      = Some (Fin (IZR (round_half_even (sqrt (u ^ 2 + v ^ 2)))))
    ∧ get2 (dir_2d s) i j
      = Some (Fin (IZR (round_half_even (direction_deg u v)))).
Proof.
  intros profile_fl.
  destruct (uvt_fields_cells _ _ _ _ _ _ Hrun)
    as (shape' & Hshape' & _ & Hcells).
  rewrite Hshape in Hshape'. injection Hshape' as <-.
  destruct (Hcells i j Hi Hj) as (c & Hc & Gt & Gs & Gd).
  assert (column (map_3d to_flight_level hgt_3d) i j = Ok profile_fl) as Cfl
    by (by rewrite column_map_3d, Hh).
  assert (column (map_3d kelvin_to_celsius t_grbs) i j
          = Ok (kelvin_to_celsius <$> profile_t)) as Ct
    by (by rewrite column_map_3d, Ht).
  assert (any_isnan profile_fl = false) as Nfl
    by (unfold profile_fl;
        by rewrite (any_isnan_fmap _ _ isnan_to_flight_level)).
  assert (any_isnan (kelvin_to_celsius <$> profile_t) = false) as Nt'
    by (by rewrite (any_isnan_fmap _ _ isnan_kelvin_to_celsius)).
  assert (length profile_u = length profile_fl
          ∧ length profile_v = length profile_fl
          ∧ length (kelvin_to_celsius <$> profile_t) = length profile_fl)
    as (Lu & Lv & Lt).
  { pose proof Hc as Hc'. unfold uvt_point in Hc'.
    rewrite Cfl, Hu, Hv, Ct in Hc'. cbn [mbind result_bind] in Hc'.
    rewrite Nfl, Nu, Nv, Nt' in Hc'. cbn [orb] in Hc'.
    apply bind_Ok in Hc' as (u0 & Eu & Hc').
    apply bind_Ok in Hc' as (v0 & Ev & Hc').
    apply bind_Ok in Hc' as (t0 & Et & _).
    apply np_interp_Ok_length in Eu as [Eu _], Ev as [Ev _], Et as [Et _].
    unfold reversed in *. rewrite !length_rev in *. done. }
  destruct (uvt_point_complete (map_3d to_flight_level hgt_3d) u_3d v_3d
              (map_3d kelvin_to_celsius t_grbs) fl i j
              profile_fl profile_u profile_v
              (kelvin_to_celsius <$> profile_t) Cfl Hu Hv Ct
              Nfl Nu Nv Nt' Lu Lv Lt)
    as (u & v & t & Eu & Ev & Et & Hpt).
  exists u, v, t. rewrite Hpt in Hc. injection Hc as <-.
  simpl in Gt, Gs, Gd. done.
Qed.
End complete_point.

(** ** Concrete values *)

Lemma atan2_west (u : R) : (0 < u)%R → atan2 0 u = 0%R.
Proof.
  intros Hu. rewrite atan2_pos_x by done.
  replace (0 / u)%R with 0%R by (field; lra). apply atan_0.
Qed.

(** A wind blowing due east comes from the west. *)
Lemma direction_deg_west (u : R) : (0 < u)%R → direction_deg u 0 = 270%R.
Proof.
  intros Hu. unfold direction_deg. rewrite atan2_west by done.
  replace (270 - 0 * (180 / PI))%R with 270%R by lra.
  rewrite (floor_unique (270 / 360) 0) by lra. lra.
Qed.

(** A one-point, one-level grid. *)
Lemma uvt_fields_single (h u v t : R) (fl : Z) :
  uvt_fields [[[Fin h]]] [[[Fin u]]] [[[Fin v]]] [[[Fin t]]] fl =
  Ok (Fields [[Fin (IZR (round_half_even
                           (round_binary64 (t - round_binary64 273.15))))]]
             [[Fin (IZR (round_half_even (sqrt (u ^ 2 + v ^ 2))))]]
             [[Fin (IZR (round_half_even (direction_deg u v)))]]).
Proof.
  unfold uvt_fields. run_point. unfold reversed. cbn [rev app].
  rewrite !np_interp_single. cbn [mbind result_bind].
  rewrite wind_speed_fin, wind_direction_fin. reflexivity.
Qed.

Lemma uv_fields_single (uninit : f64) (h u v : R) (fl : Z) :
  uv_fields uninit [[[Fin h]]] [[[Fin u]]] [[[Fin v]]] fl =
  Ok ([[Fin u]], [[Fin v]]).
Proof.
  unfold uv_fields. run_point. unfold reversed. cbn [rev app].
  rewrite !np_interp_single. reflexivity.
Qed.

Lemma sqrt_sum_squares_axis (u : R) : (0 <= u)%R → sqrt (u ^ 2 + 0 ^ 2) = u.
Proof.
  intros Hu. replace (u ^ 2 + 0 ^ 2)%R with (u * u)%R by ring.
  by apply sqrt_square.
Qed.





(** The one-point grid with U = 2.5, V = 0 and 0 degrees Celsius. *)
Lemma uvt_fields_tie_example :
  uvt_fields [[[Fin 0]]] [[[Fin 2.5]]] [[[Fin 0]]] [[[Fin 273.15]]] 0
    = Ok (Fields [[Fin 0]] [[Fin 2]] [[Fin 270]]).
Proof.
  rewrite uvt_fields_single.
  rewrite sqrt_sum_squares_axis, direction_deg_west by lra.
  rewrite celsius_of_273_15.
  replace 2.5%R with (IZR 2 + 1 / 2)%R by lra.
  rewrite round_half_even_tie.
  replace 270%R with (IZR 270) by done.
  by rewrite round_half_even_IZR.
Qed.








(** ** The U/V variant casts its arrays to integers *)

Lemma uv_fields_nan_example (uninit : f64) (fl : Z) :
  uv_fields uninit [[[Fin 0]]] [[[NaN]]] [[[Fin 1]]] fl
    = Ok ([[NaN]], [[NaN]]).
Proof. unfold uv_fields. run_point. reflexivity. Qed.

(** C1, on the U/V variant: the grid point whose U profile holds a NaN is
    skipped and assigned NaN, but the integer cast of line 73 then stores
    an integer there (the smallest int64 on x86-64), not a missing marker.
    Evaluated on the one-point grid with height 0, U = NaN, V = 1. *)
Theorem uv_nan_point_stored_as_integer (uninit : f64) :
  ∃ m, interpolate_uv_at_flight_levels uninit
         [[[Fin 0]]] [[[NaN]]] [[[Fin 1]]] = Ok m
       ∧ m !! 0%Z = Some {[ "u" := [[nan_as_int]]; "v" := [[nan_as_int]] ]}.
Proof.
  destruct (uv_run_total uninit [[[Fin 0]]] [[[NaN]]] [[[Fin 1]]]) as [m Hm].
  { intros fl _. rewrite uv_fields_nan_example. by eexists. }
  exists m. split; [done|].
  pose proof (uv_run_entries _ _ _ _ m Hm 0%Z) as H0.
  rewrite decide_True in H0 by apply elem_of_fl_target_0.
  destruct H0 as (s & Hs & ->).
  rewrite uv_fields_nan_example in Hs. by injection Hs as <-.
Qed.

(** ** Output fields and their shape *)

Lemma uv_entry_lookup_other (s : array2 f64 * array2 f64) (name : string) :
  name ≠ "u" → name ≠ "v" → uv_entry s !! name = None.
Proof.
  intros Hu Hv. unfold uv_entry.
  rewrite lookup_insert_ne by done. by rewrite lookup_singleton_ne.
Qed.

(** C8, as stated, fails: the dictionary returned by the U/V variant has
    no "speed" (nor "dir") entry under a target level. *)
Lemma uv_result_has_no_speed :
  ∃ m, interpolate_uv_at_flight_levels (Fin 0)
         [[[Fin 0]]] [[[Fin 2.5]]] [[[Fin 0]]] = Ok m
       ∧ (m !! 0%Z) ≫= (.!! "speed") = None
       ∧ (m !! 0%Z) ≫= (.!! "dir") = None.
Proof.
  destruct (uv_run_total (Fin 0) [[[Fin 0]]] [[[Fin 2.5]]] [[[Fin 0]]])
    as [m Hm].
  { intros fl _. rewrite uv_fields_single. by eexists. }
  exists m. split; [done|].
  pose proof (uv_run_entries _ _ _ _ m Hm 0%Z) as H0.
  rewrite decide_True in H0 by apply elem_of_fl_target_0.
  destruct H0 as (s & _ & ->). simpl.
  by rewrite !uv_entry_lookup_other.
Qed.

(** C8, amended: for each target level the U/V variant's result maps
    exactly "u" and "v" to 2-D arrays of the latitude/longitude grid's
    shape, and the temperature variant writes a temperature, a direction
    and a speed file whose rows have that shape. *)
Theorem output_fields_and_shapes
    uninit hgt_3d u_3d v_3d t_grbs shape :
  lats_shape hgt_3d = Ok shape →
  (∀ m, interpolate_uv_at_flight_levels uninit hgt_3d u_3d v_3d = Ok m →
     ∀ fl, fl ∈ fl_target →
       ∃ a_u a_v, m !! fl = Some {[ "u" := a_u; "v" := a_v ]}
                  ∧ has_shape shape a_u ∧ has_shape shape a_v)
  ∧ (∀ files,
       interpolate_uv_temp_at_flight_levels hgt_3d u_3d v_3d t_grbs
         = (files, Ok ()) →
       ∀ fl, fl ∈ fl_target →
         ∃ temp dir spd,
           CsvFile fl Temp temp ∈ files ∧ has_shape shape temp
           ∧ CsvFile fl Dir dir ∈ files ∧ has_shape shape dir
           ∧ CsvFile fl Spd spd ∈ files ∧ has_shape shape spd).
Proof.
  intros Hshape. split.
  - intros m Hm fl Hfl.
    pose proof (uv_run_entries _ _ _ _ m Hm fl) as H.
    rewrite decide_True in H by done. destruct H as (s & Hs & ->).
    apply uv_fields_cells in Hs as (shape' & Hshape' & H1 & H2 & _).
    rewrite Hshape in Hshape'. injection Hshape' as <-.
    exists (map_2d astype_int s.1), (map_2d astype_int s.2).
    split; [done|]. split; by apply map_2d_shape.
  - intros files Hrun fl Hfl.
    destruct (uvt_run_files _ _ _ _ files Hrun fl Hfl)
      as (s & Hs & Ft & Fd & Fs).
    apply uvt_fields_cells in Hs as (shape' & Hshape' & (H1 & H2 & H3) & _).
    rewrite Hshape in Hshape'. injection Hshape' as <-.
    exists (map_2d csv_cell (temp_2d s)), (map_2d csv_cell (dir_2d s)),
           (map_2d csv_cell (speed_2d s)).
    repeat split; try done; by apply map_2d_shape.
Qed.

Lemma output_fields_and_shapes_witness :
  is_Ok (interpolate_uv_at_flight_levels (Fin 0)
           [[[Fin 0]]] [[[Fin 2.5]]] [[[Fin 0]]])
  ∧ (∀ m, interpolate_uv_at_flight_levels (Fin 0)
            [[[Fin 0]]] [[[Fin 2.5]]] [[[Fin 0]]] = Ok m →
       ∀ fl, fl ∈ fl_target →
         ∃ a_u a_v, m !! fl = Some {[ "u" := a_u; "v" := a_v ]}
                    ∧ has_shape (1, 1) a_u ∧ has_shape (1, 1) a_v).
Proof.
  split.
  - apply uv_run_total. intros fl _. rewrite uv_fields_single. by eexists.
  - exact (proj1 (output_fields_and_shapes (Fin 0)
      [[[Fin 0]]] [[[Fin 2.5]]] [[[Fin 0]]] [[[Fin 273.15]]] (1, 1) eq_refl)).
Defined.

(** ** Grids that disagree in shape *)

Section mismatch.
Variables hgt_3d u_3d v_3d t_grbs : array3.
Variables (fl : Z) (i j : nat).

Lemma uv_point_mismatch :
  mismatch_at hgt_3d [u_3d; v_3d] i j →
  is_Raise (uv_point (map_3d to_flight_level hgt_3d) u_3d v_3d fl i j).
Proof.
  unfold uv_point. rewrite column_map_3d. intros [Hmiss|[Hall Hlen]].
  - destruct (column hgt_3d i j) as [ph|e]; [|by exists e].
    cbn [mbind result_bind].
    destruct (column u_3d i j) as [pu|e] eqn:Eu; [|by exists e].
    cbn [mbind result_bind].
    destruct (column v_3d i j) as [pv|e] eqn:Ev; [|by exists e].
    rewrite !Exists_cons, Exists_nil, Eu, Ev in Hmiss.
    destruct Hmiss as [[? [=]]|[[? [=]]|[]]].
  - rewrite !Forall_cons in Hall.
    destruct Hall as ((ph & Eh & Nh) & (pu & Eu & Nu) & (pv & Ev & Nv) & _).
    rewrite Eh, Eu, Ev. cbn [mbind result_bind].
    rewrite (any_isnan_fmap _ _ isnan_to_flight_level), Nh, Nu, Nv.
    cbn [orb].
    rewrite !Exists_cons, Exists_nil, Eh, Eu, Ev in Hlen.
    destruct (np_interp _ _ (reversed pu)) as [u|e] eqn:Iu; [|by exists e].
    cbn [mbind result_bind].
    destruct (np_interp _ _ (reversed pv)) as [v|e] eqn:Iv; [|by exists e].
    exfalso.
    apply np_interp_Ok_length in Iu as [Iu _], Iv as [Iv _].
    unfold reversed in *. rewrite !length_rev, length_fmap in *.
    destruct Hlen as [(? & ? & [= <-] & [= <-] & ?)
                     |[(? & ? & [= <-] & [= <-] & ?)|[]]]; done.
Qed.

Lemma uvt_point_mismatch :
  mismatch_at hgt_3d [u_3d; v_3d; t_grbs] i j →
  is_Raise (uvt_point (map_3d to_flight_level hgt_3d) u_3d v_3d
              (map_3d kelvin_to_celsius t_grbs) fl i j).
Proof.
  unfold uvt_point. rewrite !column_map_3d. intros [Hmiss|[Hall Hlen]].
  - destruct (column hgt_3d i j) as [ph|e]; [|by exists e].
    cbn [mbind result_bind].
    destruct (column u_3d i j) as [pu|e] eqn:Eu; [|by exists e].
    cbn [mbind result_bind].
    destruct (column v_3d i j) as [pv|e] eqn:Ev; [|by exists e].
    cbn [mbind result_bind].
    destruct (column t_grbs i j) as [pt|e] eqn:Et; [|by exists e].
    rewrite !Exists_cons, Exists_nil, Eu, Ev, Et in Hmiss.
    destruct Hmiss as [[? [=]]|[[? [=]]|[[? [=]]|[]]]].
  - rewrite !Forall_cons in Hall.
    destruct Hall as ((ph & Eh & Nh) & (pu & Eu & Nu) & (pv & Ev & Nv)
                      & (pt & Et & Nt) & _).
    rewrite Eh, Eu, Ev, Et. cbn [mbind result_bind].
    rewrite (any_isnan_fmap _ _ isnan_to_flight_level).
    rewrite (any_isnan_fmap _ _ isnan_kelvin_to_celsius).
    rewrite Nh, Nu, Nv, Nt. cbn [orb].
    rewrite !Exists_cons, Exists_nil, Eh, Eu, Ev, Et in Hlen.
    destruct (np_interp _ _ (reversed pu)) as [u|e] eqn:Iu; [|by exists e].
    cbn [mbind result_bind].
    destruct (np_interp _ _ (reversed pv)) as [v|e] eqn:Iv; [|by exists e].
    cbn [mbind result_bind].
    destruct (np_interp _ _ (reversed (kelvin_to_celsius <$> pt)))
      as [t|e] eqn:It; [|by exists e].
    exfalso.
    apply np_interp_Ok_length in Iu as [Iu _], Iv as [Iv _], It as [It _].
    unfold reversed in *. rewrite !length_rev, !length_fmap in *.
    destruct Hlen as [(? & ? & [= <-] & [= <-] & ?)
                     |[(? & ? & [= <-] & [= <-] & ?)
                     |[(? & ? & [= <-] & [= <-] & ?)|[]]]]; done.
Qed.
End mismatch.

Lemma uv_fields_wide_example (fl : Z) :
  uv_fields (Fin 0) [[[Fin 0]]] [[[Fin 1; Fin 2]]] [[[Fin 1]]] fl
    = Ok ([[Fin 1]], [[Fin 1]]).
Proof.
  unfold uv_fields. run_point. unfold reversed. cbn [rev app].
  rewrite !np_interp_single. reflexivity.
Qed.

Lemma uvt_fields_wide_example (fl : Z) :
  is_Ok (uvt_fields [[[Fin 0]]] [[[Fin 1; Fin 2]]] [[[Fin 1]]]
           [[[Fin 273.15]]] fl).
Proof.
  unfold uvt_fields. run_point. unfold reversed. cbn [rev app].
  rewrite !np_interp_single. cbn [mbind result_bind].
  rewrite wind_speed_fin, wind_direction_fin. by eexists.
Qed.

(** C2, as stated, fails: a U grid with one more column than the height
    grid is accepted by both variants, which run to completion. *)
Lemma wider_u_grid_is_accepted :
  shape2 [[Fin 1; Fin 2]] ≠ shape2 [[Fin 0]]
  ∧ is_Ok (interpolate_uv_at_flight_levels (Fin 0)
             [[[Fin 0]]] [[[Fin 1; Fin 2]]] [[[Fin 1]]])
  ∧ ∃ files, interpolate_uv_temp_at_flight_levels
               [[[Fin 0]]] [[[Fin 1; Fin 2]]] [[[Fin 1]]] [[[Fin 273.15]]]
             = (files, Ok ()).
Proof.
  split; [done|]. split.
  - apply uv_run_total. intros fl _. rewrite uv_fields_wide_example.
    by eexists.
  - apply uvt_run_total. intros fl _. apply uvt_fields_wide_example.
Qed.

(** C2, amended: neither variant checks shapes up front, and there is no
    ShapeMismatch error.  When some point of the latitude/longitude grid
    has no cell in another grid, or has NaN-free profiles of which one
    differs in length from the height profile, the run fails with NumPy's
    own exception in the pass for the first target level: the U/V variant
    returns nothing, the temperature variant has written no file. *)
Theorem mismatch_fails_in_first_pass
    uninit hgt_3d u_3d v_3d t_grbs shape i j :
  lats_shape hgt_3d = Ok shape → i < shape.1 → j < shape.2 →
  (mismatch_at hgt_3d [u_3d; v_3d] i j →
     is_Raise (interpolate_uv_at_flight_levels uninit hgt_3d u_3d v_3d))
  ∧ (mismatch_at hgt_3d [u_3d; v_3d; t_grbs] i j →
       ∃ e, interpolate_uv_temp_at_flight_levels hgt_3d u_3d v_3d t_grbs
            = ([], Raise e)).
Proof.
  intros Hshape Hi Hj. split; intros Hmis.
  - apply uv_run_raises. eapply uv_fields_raises; eauto.
    by apply uv_point_mismatch.
  - apply uvt_run_raises. eapply uvt_fields_raises; eauto.
    by apply uvt_point_mismatch.
Qed.

Lemma mismatch_fails_in_first_pass_witness :
  is_Raise (interpolate_uv_at_flight_levels (Fin 0)
              [[[Fin 0]]] [[[Fin 1]]; [[Fin 2]]] [[[Fin 1]]])
  ∧ ∃ e, interpolate_uv_temp_at_flight_levels
           [[[Fin 0]]] [[[Fin 1]]; [[Fin 2]]] [[[Fin 1]]] [[[Fin 273.15]]]
         = ([], Raise e).
Proof.
  pose proof (mismatch_fails_in_first_pass (Fin 0)
    [[[Fin 0]]] [[[Fin 1]]; [[Fin 2]]] [[[Fin 1]]] [[[Fin 273.15]]]
    (1, 1) 0 0 eq_refl (Nat.lt_0_succ 0) (Nat.lt_0_succ 0)) as [Huv Huvt].
  split.
  - apply Huv. right. split.
    + repeat constructor; by eexists.
    + left. exists [Fin 0], [Fin 1; Fin 2]. by repeat split.
  - apply Huvt. right. split.
    + repeat constructor; by eexists.
    + left. exists [Fin 0], [Fin 1; Fin 2]. by repeat split.
Defined.

(** ** The three-level scenario *)




Lemma interp_ascending_0 (q50 q150 q250 : R) :
  np_interp (Fin (IZR 0)) (reversed [Fin 50; Fin 150; Fin 250])
            (reversed [Fin q50; Fin q150; Fin q250]) = Ok (Fin q250).
Proof. run_interp. reflexivity. Qed.







(** ** Ordering of a profile and the clamp at its ends *)

Lemma flt_trans (x y z : f64) :
  flt x y = true → flt y z = true → flt x z = true.
Proof.
  destruct x, y, z; try done. unfold flt.
  rewrite !bool_decide_eq_true. lra.
Qed.

Lemma last_elem_of (p : array1) (d : f64) : p ≠ [] → List.last p d ∈ p.
Proof.
  induction p as [|a [|b p] IH]; intros Hne; [done|by left|].
  right. by apply IH.
Qed.

Lemma hd_elem_of (p : array1) (d : f64) : p ≠ [] → hd d p ∈ p.
Proof. destruct p; [done|]. intros _. by left. Qed.

Lemma strictly_decreasing_cons (a : f64) (p : array1) :
  strictly_decreasing (a :: p) = true →
  strictly_decreasing p = true ∧ ∀ y, y ∈ p → flt y a = true.
Proof.
  revert a. induction p as [|b p IH]; intros a H.
  - split; [done|]. intros y Hy. by apply elem_of_nil in Hy.
  - cbn [strictly_decreasing] in H. apply andb_true_iff in H as [Hab Hp].
    split; [done|]. intros y Hy.
    apply elem_of_cons in Hy as [->|Hy]; [done|].
    destruct (IH b Hp) as [_ Hb]. eapply flt_trans; [by apply Hb|done].
Qed.

Lemma strictly_decreasing_last (p : array1) :
  strictly_decreasing p = true →
  ∀ y, y ∈ p → y = List.last p NaN ∨ flt (List.last p NaN) y = true.
Proof.
  induction p as [|a [|b p] IH]; intros H y Hy.
  - by apply elem_of_nil in Hy.
  - left. apply list_elem_of_singleton in Hy. by subst.
  - destruct (strictly_decreasing_cons _ _ H) as [Hp Ha].
    change (List.last (a :: b :: p) NaN) with (List.last (b :: p) NaN).
    apply elem_of_cons in Hy as [->|Hy].
    + right. apply Ha. by apply last_elem_of.
    + by apply IH.
Qed.

Lemma strictly_decreasing_hd (p : array1) :
  strictly_decreasing p = true →
  ∀ y, y ∈ p → y = hd NaN p ∨ flt y (hd NaN p) = true.
Proof.
  destruct p as [|a p]; intros H y Hy; [by apply elem_of_nil in Hy|].
  apply elem_of_cons in Hy as [->|Hy]; [by left|].
  right. by apply (strictly_decreasing_cons a p).
Qed.

Lemma strictly_increasing_snoc (p : array1) (a : f64) :
  strictly_increasing (p ++ [a]) =
  strictly_increasing p
  && match p with [] => true | _ => flt (List.last p NaN) a end.
Proof.
  induction p as [|x [|y p] IH]; [done| |].
  - simpl. by rewrite andb_true_r.
  - change ((x :: y :: p) ++ [a]) with (x :: (y :: p) ++ [a]).
    change (strictly_increasing (x :: (y :: p) ++ [a]))
      with (flt x y && strictly_increasing ((y :: p) ++ [a])).
    rewrite IH. change (strictly_increasing (x :: y :: p))
      with (flt x y && strictly_increasing (y :: p)).
    by rewrite andb_assoc.
Qed.

Lemma last_rev_hd (p : array1) : List.last (rev p) NaN = hd NaN p.
Proof. destruct p as [|a p]; [done|]. simpl. apply last_last. Qed.

(** Reversing turns a strictly decreasing profile into a strictly
    increasing one, and only such a profile. *)
Lemma strictly_increasing_reversed (p : array1) :
  strictly_increasing (reversed p) = strictly_decreasing p.
Proof.
  unfold reversed. induction p as [|a p IH]; [done|].
  simpl rev. rewrite strictly_increasing_snoc, IH, last_rev_hd.
  destruct p as [|b p]; [done|].
  destruct (rev (b :: p)) eqn:E.
  { apply (f_equal (@length _)) in E. rewrite length_rev in E. done. }
  cbn [strictly_decreasing hd]. unfold fgt. apply andb_comm.
Qed.

(** C6, as stated, fails: for a complete profile stored lowest level
    first (flight levels 50, 150, 250 with U = 10, 20, 30) a target below
    the lowest level yields 30, the value of the highest level, not the
    value 10 of the lowest. *)
Lemma clamp_wrong_end_for_ascending_profile :
  any_isnan [Fin 50; Fin 150; Fin 250] = false
  ∧ any_isnan [Fin 10; Fin 20; Fin 30] = false
  ∧ uv_level [[[Fin 50]]; [[Fin 150]]; [[Fin 250]]]
             [[[Fin 10]]; [[Fin 20]]; [[Fin 30]]]
             [[[Fin 0]]; [[Fin 0]]; [[Fin 0]]] (Fin 0) (1, 1) 0
    = Ok ([[Fin 30]], [[Fin 0]])
  ∧ Fin 30 ≠ Fin 10.
Proof.
  split; [done|]. split; [done|]. split.
  - unfold uv_level. run_point. by rewrite !interp_ascending_0.
  - intros [= H]. lra.
Qed.

(** C6, amended: for a complete profile whose flight level decreases with
    the level index (the order the reversal expects), the last stored level
    is the lowest and the first the highest; a target below the lowest
    yields the interpolated quantity's value at the lowest level and a
    target above the highest its value at the highest level, both numbers,
    never NaN. *)
Theorem boundary_clamp (k : R) (profile_fl profile_q : array1) :
  profile_fl ≠ [] →
  length profile_q = length profile_fl →
  any_isnan profile_fl = false →
  any_isnan profile_q = false →
  strictly_decreasing profile_fl = true →
  ∃ lo hi q_lo q_hi,
    List.last profile_fl NaN = Fin lo ∧ hd NaN profile_fl = Fin hi
    ∧ List.last profile_q NaN = Fin q_lo ∧ hd NaN profile_q = Fin q_hi
    ∧ (∀ y, Fin y ∈ profile_fl → (lo <= y <= hi)%R)
    ∧ ((k < lo)%R →
       np_interp (Fin k) (reversed profile_fl) (reversed profile_q)
         = Ok (Fin q_lo))
    ∧ ((hi < k)%R →
       np_interp (Fin k) (reversed profile_fl) (reversed profile_q)
         = Ok (Fin q_hi)).
Proof.
  intros Hne Hlen Nfl Nq Hdec.
  assert (profile_q ≠ []) as Hneq by (intros ->; by destruct profile_fl).
  assert (∀ p x, any_isnan p = false → x ∈ p → ∃ r, x = Fin r) as Hfin.
  { intros p x Hp Hx. apply isnan_false.
    apply any_isnan_false in Hp. rewrite Forall_forall in Hp. by apply Hp. }
  destruct (Hfin _ _ Nfl (last_elem_of profile_fl NaN Hne)) as [lo Hlo].
  destruct (Hfin _ _ Nfl (hd_elem_of profile_fl NaN Hne)) as [hi Hhi].
  destruct (Hfin _ _ Nq (last_elem_of profile_q NaN Hneq)) as [q_lo Hqlo].
  destruct (Hfin _ _ Nq (hd_elem_of profile_q NaN Hneq)) as [q_hi Hqhi].
  exists lo, hi, q_lo, q_hi. do 4 (split; [done|]).
  assert (∀ y, Fin y ∈ profile_fl → (lo <= y <= hi)%R) as Hrange.
  { intros y Hy. split.
    - destruct (strictly_decreasing_last _ Hdec _ Hy) as [E|E];
        rewrite Hlo in E.
      + injection E as ->. lra.
      + apply bool_decide_eq_true in E. lra.
    - destruct (strictly_decreasing_hd _ Hdec _ Hy) as [E|E];
        rewrite Hhi in E.
      + injection E as ->. lra.
      + apply bool_decide_eq_true in E. lra. }
  split; [done|].
  assert (rev profile_fl ≠ []) as Hne'.
  { intros E. apply Hne. by rewrite <- (rev_involutive profile_fl), E. }
  assert (length (rev profile_q) = length (rev profile_fl)) as Hlen'
    by (by rewrite !length_rev).
  unfold reversed. split; intros Hk.
  - rewrite (np_interp_left k lo); try done.
    + by rewrite arr_at_rev_first, Hqlo.
    + by rewrite arr_at_rev_first.
    + rewrite arr_at_rev_last, Hhi. unfold fgt, flt.
      apply bool_decide_eq_false.
      pose proof (Hrange lo) as Hl. rewrite <- Hlo in Hl.
      specialize (Hl (last_elem_of _ _ Hne)). lra.
  - rewrite (np_interp_right k hi); try done.
    + by rewrite <- Hlen', arr_at_rev_last, Hqhi.
    + by rewrite arr_at_rev_last.
Qed.

Lemma boundary_clamp_witness :
  ∃ lo hi q_lo q_hi,
    List.last [Fin 250; Fin 150; Fin 50] NaN = Fin lo
    ∧ hd NaN [Fin 250; Fin 150; Fin 50] = Fin hi
    ∧ List.last [Fin 30; Fin 20; Fin 10] NaN = Fin q_lo
    ∧ hd NaN [Fin 30; Fin 20; Fin 10] = Fin q_hi
    ∧ (∀ y, Fin y ∈ [Fin 250; Fin 150; Fin 50] → (lo <= y <= hi)%R)
    ∧ ((0 < lo)%R →
       np_interp (Fin 0) (reversed [Fin 250; Fin 150; Fin 50])
         (reversed [Fin 30; Fin 20; Fin 10]) = Ok (Fin q_lo))
    ∧ ((hi < 0)%R →
       np_interp (Fin 0) (reversed [Fin 250; Fin 150; Fin 50])
         (reversed [Fin 30; Fin 20; Fin 10]) = Ok (Fin q_hi)).
Proof.
  apply (boundary_clamp 0 [Fin 250; Fin 150; Fin 50]
                          [Fin 30; Fin 20; Fin 10]); try done.
  cbn -[bool_decide]. rsolve. reflexivity.
Defined.



(** * Further properties of the resampler *)

(** ** Interpolation on an increasing sample array *)

Lemma strictly_increasing_cons (a : f64) (p : array1) :
  strictly_increasing (a :: p) = true →
  strictly_increasing p = true ∧ ∀ y, y ∈ p → flt a y = true.
Proof.
  revert a. induction p as [|b p IH]; intros a H.
  - split; [done|]. intros y Hy. by apply elem_of_nil in Hy.
  - cbn [strictly_increasing] in H. apply andb_true_iff in H as [Hab Hp].
    split; [done|]. intros y Hy.
    apply elem_of_cons in Hy as [->|Hy]; [done|].
    destruct (IH b Hp) as [_ Hb]. eapply flt_trans; [done|by apply Hb].
Qed.

Lemma strictly_increasing_nth (p : array1) (i j : nat) :
  strictly_increasing p = true → i < j < length p →
  flt (nth i p NaN) (nth j p NaN) = true.
Proof.
  revert i j. induction p as [|a p IH]; intros i j H Hij; [simpl in Hij; lia|].
  destruct (strictly_increasing_cons a p H) as [Hp Ha].
  destruct j as [|j]; [lia|]. destruct i as [|i]; simpl in *.
  - apply Ha. apply list_elem_of_In, nth_In. lia.
  - apply IH; [done|lia].
Qed.

Lemma strictly_increasing_arr_at (p : array1) (i j : Z) :
  strictly_increasing p = true →
  (0 ≤ i < j)%Z → (j < Z.of_nat (length p))%Z →
  flt (arr_at p i) (arr_at p j) = true.
Proof.
  intros H Hij Hj. unfold arr_at. apply strictly_increasing_nth; [done|lia].
Qed.

(** In an increasing array the bracket found by the search is the only
    one. *)
Lemma bracket_unique (k a b : R) (xp : array1) (j j' : Z) :
  strictly_increasing xp = true →
  bracket (Fin k) xp j' →
  (0 ≤ j)%Z → (j < Z.of_nat (length xp))%Z →
  arr_at xp j = Fin a → (a <= k)%R →
  ((j + 1 < Z.of_nat (length xp))%Z →
     arr_at xp (j + 1) = Fin b ∧ (k < b)%R) →
  j' = j.
Proof.
  intros Hinc (Hj' & Hlo & Hhi) Hj0 Hj Ha Hak Hb.
  destruct (Z.lt_trichotomy j' j) as [Hlt|[->|Hgt]]; [|done|]; exfalso.
  - (* xp[j' + 1] <= xp[j] <= k, yet k < xp[j' + 1] *)
    specialize (Hhi ltac:(lia)).
    destruct (decide (j' + 1 = j)%Z) as [E|E].
    + rewrite E, Ha in Hhi. apply bool_decide_eq_true in Hhi. lra.
    + pose proof (strictly_increasing_arr_at xp (j' + 1) j Hinc
                    ltac:(lia) ltac:(lia)) as Hm.
      rewrite Ha in Hm. destruct (arr_at xp (j' + 1)) as [|c]; [done|].
      apply bool_decide_eq_true in Hhi, Hm. lra.
  - (* xp[j + 1] <= xp[j'] <= k, yet k < xp[j + 1] *)
    destruct (Hb ltac:(lia)) as [Eb Hkb].
    destruct (decide (j + 1 = j')%Z) as [E|E].
    + rewrite <- E, Eb in Hlo. apply bool_decide_eq_true in Hlo. lra.
    + pose proof (strictly_increasing_arr_at xp (j + 1) j' Hinc
                    ltac:(lia) ltac:(lia)) as Hm.
      rewrite Eb in Hm. destruct (arr_at xp j') as [|c]; [done|].
      apply bool_decide_eq_true in Hlo, Hm. lra.
Qed.

(** What np.interp computes inside an increasing sample array: the search
    lands on the interval that holds the key. *)
Lemma np_interp_in_interval (k a b : R) (xp fp : array1) (j : Z) :
  strictly_increasing xp = true →
  any_isnan xp = false → length fp = length xp →
  (0 ≤ j)%Z → (j + 1 < Z.of_nat (length xp))%Z →
  arr_at xp j = Fin a → arr_at xp (j + 1) = Fin b →
  (a <= k < b)%R →
  np_interp (Fin k) xp fp
  = Ok (interp_at (Fin k) xp fp (Z.of_nat (length xp)) j).
Proof.
  intros Hinc Nxp Hlen Hj0 Hj1 Ea Eb Hk. unfold np_interp.
  assert (xp ≠ []) as Hne by (intros ->; simpl in Hj1; lia).
  rewrite bool_decide_eq_false_2 by lia.
  rewrite bool_decide_eq_false_2 by (rewrite Hlen; tauto).
  rewrite bool_decide_eq_false_2 by lia. simpl. do 2 f_equal.
  destruct (binary_search_cases k xp 0 Nxp Hne)
    as [[Hgt _]|[(_ & Hlt & _)|(_ & _ & Hbr)]].
  - (* k > xp[len - 1] is impossible *)
    exfalso. destruct (decide (j + 1 = Z.of_nat (length xp) - 1)%Z) as [E|E].
    + rewrite <- E, Eb in Hgt. apply bool_decide_eq_true in Hgt. lra.
    + pose proof (strictly_increasing_arr_at xp (j + 1)
                    (Z.of_nat (length xp) - 1) Hinc ltac:(lia) ltac:(lia))
        as Hm.
      rewrite Eb in Hm.
      destruct (arr_at xp (Z.of_nat (length xp) - 1)) as [|c]; [done|].
      apply bool_decide_eq_true in Hgt, Hm. lra.
  - (* k < xp[0] is impossible *)
    exfalso. destruct (decide (j = 0)%Z) as [E|E].
    + subst j. rewrite Ea in Hlt. apply bool_decide_eq_true in Hlt. lra.
    + pose proof (strictly_increasing_arr_at xp 0 j Hinc
                    ltac:(lia) ltac:(lia)) as Hm.
      rewrite Ea in Hm. destruct (arr_at xp 0) as [|c]; [done|].
      apply bool_decide_eq_true in Hlt, Hm. lra.
  - apply (bracket_unique k a b xp j _ Hinc Hbr); [lia|lia|done|lra|].
    intros _. split; [done|lra].
Qed.



Lemma arr_at_reversed (p : array1) (i : nat) :
  i < length p →
  arr_at (reversed p) (Z.of_nat (length p) - 1 - Z.of_nat i) = nth i p NaN.
Proof.
  intros Hi. unfold arr_at, reversed.
  replace (Z.to_nat (Z.of_nat (length p) - 1 - Z.of_nat i))
    with (length p - S i) by lia.
  rewrite rev_nth by lia. f_equal. lia.
Qed.

(** np.interp at a sample of an increasing array returns that sample. *)
Lemma np_interp_at_sample (a : R) (xp fp : array1) (j : Z) :
  strictly_increasing xp = true →
  any_isnan xp = false → length fp = length xp →
  (0 ≤ j < Z.of_nat (length xp))%Z →
  arr_at xp j = Fin a →
  np_interp (Fin a) xp fp = Ok (arr_at fp j).
Proof.
  intros Hinc Nxp Hlen Hj Ea.
  assert (xp ≠ []) as Hne by (intros ->; simpl in Hj; lia).
  destruct (decide (j + 1 < Z.of_nat (length xp))%Z) as [Hj1|Hlast].
  - (* an interior sample, or the first *)
    destruct (arr_at_finite xp (j + 1) Nxp) as [b Eb]; [lia|].
    pose proof (strictly_increasing_arr_at xp j (j + 1) Hinc
                  ltac:(lia) ltac:(lia)) as Hab.
    rewrite Ea, Eb in Hab. apply bool_decide_eq_true in Hab.
    rewrite (np_interp_in_interval a a b xp fp j) by (done || lia || lra).
    f_equal. unfold interp_at.
    rewrite bool_decide_eq_false_2 by lia.
    rewrite bool_decide_eq_false_2 by lia.
    rewrite bool_decide_eq_false_2 by lia.
    rewrite Ea. simpl. by rewrite bool_decide_eq_true_2.
  - (* the last sample *)
    assert (j = Z.of_nat (length xp) - 1)%Z as Ej by lia.
    unfold np_interp.
    rewrite bool_decide_eq_false_2 by lia.
    rewrite bool_decide_eq_false_2 by (rewrite Hlen; tauto).
    case_bool_decide as H1.
    + assert (j = 0)%Z as -> by lia. rewrite Ea. unfold fgt. simpl.
      rewrite bool_decide_eq_false_2 by lra. done.
    + simpl. f_equal.
      destruct (binary_search_cases a xp 0 Nxp Hne)
        as [[Hgt _]|[(_ & Hlt & _)|(_ & _ & Hbr)]].
      * exfalso. rewrite <- Ej, Ea in Hgt.
        apply bool_decide_eq_true in Hgt. lra.
      * exfalso.
        pose proof (strictly_increasing_arr_at xp 0 j Hinc
                      ltac:(lia) ltac:(lia)) as Hm.
        rewrite Ea in Hm. destruct (arr_at xp 0) as [|c]; [done|].
        apply bool_decide_eq_true in Hlt, Hm. lra.
      * rewrite (bracket_unique a a 0 xp j _ Hinc Hbr);
          [|lia|lia|done|lra|lia].
        unfold interp_at.
        rewrite bool_decide_eq_false_2 by lia.
        rewrite bool_decide_eq_false_2 by lia.
        by rewrite bool_decide_eq_true_2.
Qed.

(** X2: a target that equals the flight level of a stored level yields the
    interpolated quantity's value at that level, when the stored profile is
    NaN-free and decreasing. *)
Theorem interp_exact_at_stored_level
    (a : R) (y : f64) (profile_fl profile_q : array1) (i : nat) :
  strictly_decreasing profile_fl = true →
  any_isnan profile_fl = false →
  length profile_q = length profile_fl →
  profile_fl !! i = Some (Fin a) →
  profile_q !! i = Some y →
  np_interp (Fin a) (reversed profile_fl) (reversed profile_q) = Ok y.
Proof.
  intros Hdec Nfl Hlen Ea Ey.
  pose proof (lookup_lt_Some _ _ _ Ea) as Hi.
  rewrite (np_interp_at_sample a _ _
             (Z.of_nat (length profile_fl) - 1 - Z.of_nat i)).
  - rewrite <- Hlen, arr_at_reversed by lia.
    by rewrite (nth_lookup_Some _ _ _ _ Ey).
  - by rewrite strictly_increasing_reversed.
  - unfold reversed. by rewrite any_isnan_rev.
  - unfold reversed. by rewrite !length_rev.
  - unfold reversed. rewrite length_rev. lia.
  - rewrite arr_at_reversed by lia. by rewrite (nth_lookup_Some _ _ _ _ Ea).
Qed.

Lemma interp_exact_at_stored_level_witness :
  np_interp (Fin 250) (reversed [Fin 250; Fin 150; Fin 50])
            (reversed [Fin 30; Fin 20; Fin 10]) = Ok (Fin 30).
Proof.
  apply (interp_exact_at_stored_level 250 (Fin 30)
           [Fin 250; Fin 150; Fin 50] [Fin 30; Fin 20; Fin 10] 0);
    try done.
  cbn -[bool_decide]. rsolve. reflexivity.
Defined.

(** ** Grids of one common shape *)

Lemma get2_in_shape {A} shape (a : array2 A) i j :
  has_shape shape a → i < shape.1 → j < shape.2 → is_Some (get2 a i j).
Proof.
  intros [Hl Hr] Hi Hj. unfold get2.
  destruct (lookup_lt_is_Some_2 a i) as [row Hrow]; [lia|].
  rewrite Hrow. simpl. apply lookup_lt_is_Some_2.
  eapply Forall_lookup_1 in Hr; eauto. simpl in Hr. lia.
Qed.

Lemma column_well_shaped levels shape (a : array3) i j :
  well_shaped levels shape a → 0 < levels →
  i < shape.1 → j < shape.2 →
  ∃ p, column a i j = Ok p ∧ length p = levels.
Proof.
  intros [Hl Hall] Hpos Hi Hj. unfold column.
  destruct a as [|lvl a]; [simpl in Hl; lia|].
  destruct (mapM (λ lvl : array2 f64, get2 lvl i j) (lvl :: a))
    as [p|] eqn:Hp.
  - exists p. split; [done|]. apply length_mapM in Hp. lia.
  - exfalso. apply mapM_None in Hp. apply Exists_exists in Hp
      as (l0 & Hin & Hnone).
    rewrite Forall_forall in Hall.
    destruct (get2_in_shape shape l0 i j (Hall l0 Hin) Hi Hj) as [x Hx].
    congruence.
Qed.

Lemma lats_shape_well_shaped levels shape (hgt_3d : array3) :
  well_shaped levels shape hgt_3d → 0 < levels →
  ∃ sh, lats_shape hgt_3d = Ok sh
        ∧ sh.1 = shape.1 ∧ (0 < sh.1 → sh.2 = shape.2).
Proof.
  intros [Hl Hall] Hpos. destruct hgt_3d as [|lvl0 rest]; [simpl in Hl; lia|].
  apply Forall_cons in Hall as [[H1 H2] _].
  exists (shape2 lvl0). split; [done|]. unfold shape2. simpl.
  split; [done|]. destruct lvl0 as [|row rows]; [simpl; lia|].
  intros _. by apply Forall_cons in H2 as [H2 _].
Qed.

Section well_shaped_inputs.
Variables (levels : nat) (shape : nat * nat).
Variables hgt_3d u_3d v_3d t_grbs : array3.
Hypothesis Hpos : 0 < levels.
Hypothesis Wh : well_shaped levels shape hgt_3d.
Hypothesis Wu : well_shaped levels shape u_3d.
Hypothesis Wv : well_shaped levels shape v_3d.

Lemma uv_point_well_shaped fl i j :
  i < shape.1 → j < shape.2 →
  is_Ok (uv_point (map_3d to_flight_level hgt_3d) u_3d v_3d fl i j).
Proof.
  intros Hi Hj.
  destruct (column_well_shaped _ _ _ i j Wh Hpos Hi Hj) as (ph & Eh & Lh).
  destruct (column_well_shaped _ _ _ i j Wu Hpos Hi Hj) as (pu & Eu & Lu).
  destruct (column_well_shaped _ _ _ i j Wv Hpos Hi Hj) as (pv & Ev & Lv).
  assert (column (map_3d to_flight_level hgt_3d) i j
          = Ok (to_flight_level <$> ph)) as Efl
    by (by rewrite column_map_3d, Eh).
  destruct (any_isnan (to_flight_level <$> ph) || any_isnan pu
            || any_isnan pv) eqn:Hnan.
  - rewrite (uv_point_nan _ _ _ fl i j _ _ _ Efl Eu Ev Hnan). by eexists.
  - apply orb_false_iff in Hnan as [Hnan Nv].
    apply orb_false_iff in Hnan as [Nfl Nu].
    destruct (uv_point_complete _ _ _ fl i j _ _ _ Efl Eu Ev Nfl Nu Nv)
      as (u & v & _ & _ & ->); [rewrite length_fmap; lia..|].
    by eexists.
Qed.

Hypothesis Wt : well_shaped levels shape t_grbs.

Lemma uvt_point_well_shaped fl i j :
  i < shape.1 → j < shape.2 →
  is_Ok (uvt_point (map_3d to_flight_level hgt_3d) u_3d v_3d
           (map_3d kelvin_to_celsius t_grbs) fl i j).
Proof.
  intros Hi Hj.
  destruct (column_well_shaped _ _ _ i j Wh Hpos Hi Hj) as (ph & Eh & Lh).
  destruct (column_well_shaped _ _ _ i j Wu Hpos Hi Hj) as (pu & Eu & Lu).
  destruct (column_well_shaped _ _ _ i j Wv Hpos Hi Hj) as (pv & Ev & Lv).
  destruct (column_well_shaped _ _ _ i j Wt Hpos Hi Hj) as (pt & Et & Lt).
  assert (column (map_3d to_flight_level hgt_3d) i j
          = Ok (to_flight_level <$> ph)) as Efl
    by (by rewrite column_map_3d, Eh).
  assert (column (map_3d kelvin_to_celsius t_grbs) i j
          = Ok (kelvin_to_celsius <$> pt)) as Ec
    by (by rewrite column_map_3d, Et).
  destruct (any_isnan (to_flight_level <$> ph) || any_isnan pu
            || any_isnan pv || any_isnan (kelvin_to_celsius <$> pt))
    eqn:Hnan.
  - rewrite (uvt_point_nan _ _ _ _ fl i j _ _ _ _ Efl Eu Ev Ec Hnan).
    by eexists.
  - apply orb_false_iff in Hnan as [Hnan Nt].
    apply orb_false_iff in Hnan as [Hnan Nv].
    apply orb_false_iff in Hnan as [Nfl Nu].
    destruct (uvt_point_complete _ _ _ _ fl i j _ _ _ _ Efl Eu Ev Ec
                Nfl Nu Nv Nt)
      as (u & v & t & _ & _ & _ & ->); [rewrite ?length_fmap; lia..|].
    by eexists.
Qed.
End well_shaped_inputs.

(** X4: when the height, U and V grids all have the same number of
    levels, at least one, and the same two-dimensional shape, the U/V
    variant runs to completion: no exception is raised, whatever the cells
    hold. *)
Theorem well_shaped_grids_never_raise
    uninit levels shape hgt_3d u_3d v_3d :
  0 < levels →
  well_shaped levels shape hgt_3d →
  well_shaped levels shape u_3d →
  well_shaped levels shape v_3d →
  is_Ok (interpolate_uv_at_flight_levels uninit hgt_3d u_3d v_3d).
Proof.
  intros Hpos Wh Wu Wv.
  destruct (lats_shape_well_shaped _ _ _ Wh Hpos) as (sh & Hsh & H1 & H2).
  assert (∀ i j, i < sh.1 → j < sh.2 → i < shape.1 ∧ j < shape.2) as Hin.
  { intros i j Hi Hj. rewrite <- H1, <- H2 by lia. done. }
  apply uv_run_total. intros fl _. unfold uv_fields. rewrite Hsh.
  cbn [mbind result_bind]. apply uv_level_total. intros i j Hi Hj.
  destruct (Hin i j Hi Hj). by eapply uv_point_well_shaped.
Qed.

Lemma well_shaped_grids_never_raise_witness :
  is_Ok (interpolate_uv_at_flight_levels (Fin 0)
           [[[Fin 900; NaN]]; [[Fin 100; Fin 120]]]
           [[[Fin 5; Fin 6]]; [[Fin 7; Fin 8]]]
           [[[Fin 1; Fin 2]]; [[Fin 3; Fin 4]]]).
Proof.
  apply (well_shaped_grids_never_raise (Fin 0) 2 (1, 2));
    [lia|..]; (split; [done|]); repeat constructor.
Defined.

(** ** Range of the stored values *)

(** The three values written at a point that was not skipped. *)
Lemma uvt_point_Some fl_3d u_3d v_3d t_3d fl i j t sp d :
  uvt_point fl_3d u_3d v_3d t_3d fl i j = Ok (Some (t, sp, d)) →
  ∃ u v tv,
    t = Fin (IZR (round_half_even tv))
    ∧ sp = Fin (IZR (round_half_even (sqrt (u ^ 2 + v ^ 2))))
    ∧ d = Fin (IZR (round_half_even (direction_deg u v))).
Proof.
  unfold uvt_point. intros H.
  apply bind_Ok in H as (pfl & _ & H). apply bind_Ok in H as (pu & _ & H).
  apply bind_Ok in H as (pv & _ & H). apply bind_Ok in H as (pt & _ & H).
  destruct (_ || _); [done|].
  apply bind_Ok in H as (u_val & _ & H). apply bind_Ok in H as (v_val & _ & H).
  apply bind_Ok in H as (t_val & _ & H).
  apply bind_Ok in H as (tz & Htz & H). apply bind_Ok in H as (sz & Hsz & H).
  apply bind_Ok in H as (dz & Hdz & H). injection H as <- <- <-.
  destruct t_val as [|tv]; [done|]. injection Htz as <-.
  destruct u_val as [|u]; [done|]. destruct v_val as [|v]; [done|].
  rewrite wind_speed_fin in Hsz. rewrite wind_direction_fin in Hdz.
  injection Hsz as <-. injection Hdz as <-. by exists u, v, tv.
Qed.

(** X5: every cell of the speed array of a completed pass is NaN or a
    non-negative integer. *)
Theorem stored_speed_is_nonnegative
    hgt_3d u_3d v_3d t_grbs fl s shape i j :
  uvt_fields hgt_3d u_3d v_3d t_grbs fl = Ok s →
  lats_shape hgt_3d = Ok shape → i < shape.1 → j < shape.2 →
  get2 (speed_2d s) i j = Some NaN
  ∨ ∃ n, get2 (speed_2d s) i j = Some (Fin (IZR n)) ∧ (0 ≤ n)%Z.
Proof.
  intros Hrun Hshape Hi Hj.
  apply uvt_fields_cells in Hrun as (shape' & Hshape' & _ & Hcells).
  rewrite Hshape in Hshape'. injection Hshape' as <-.
  destruct (Hcells i j Hi Hj) as (c & Hc & _ & -> & _).
  destruct c as [[[t sp] d]|]; [|by left]. right.
  apply uvt_point_Some in Hc as (u & v & tv & _ & -> & _).
  eexists. split; [done|]. apply round_half_even_ge. apply sqrt_pos.
Qed.

Lemma stored_speed_is_nonnegative_witness :
  get2 [[Fin 2]] 0 0 = Some NaN
  ∨ ∃ n, get2 [[Fin 2]] 0 0 = Some (Fin (IZR n)) ∧ (0 ≤ n)%Z.
Proof.
  exact (stored_speed_is_nonnegative
    [[[Fin 0]]] [[[Fin 2.5]]] [[[Fin 0]]] [[[Fin 273.15]]] 0
    (Fields [[Fin 0]] [[Fin 2]] [[Fin 270]]) (1, 1) 0 0
    uvt_fields_tie_example eq_refl (Nat.lt_0_succ 0) (Nat.lt_0_succ 0)).
Defined.

(** X6: every cell of the direction array of a completed pass is NaN or
    an integer from 0 to 360; it is never negative and never above 360. *)
Theorem stored_direction_is_within_0_360
    hgt_3d u_3d v_3d t_grbs fl s shape i j :
  uvt_fields hgt_3d u_3d v_3d t_grbs fl = Ok s →
  lats_shape hgt_3d = Ok shape → i < shape.1 → j < shape.2 →
  get2 (dir_2d s) i j = Some NaN
  ∨ ∃ n, get2 (dir_2d s) i j = Some (Fin (IZR n)) ∧ (0 ≤ n ≤ 360)%Z.
Proof.
  intros Hrun Hshape Hi Hj.
  apply uvt_fields_cells in Hrun as (shape' & Hshape' & _ & Hcells).
  rewrite Hshape in Hshape'. injection Hshape' as <-.
  destruct (Hcells i j Hi Hj) as (c & Hc & _ & _ & ->).
  destruct c as [[[t sp] d]|]; [|by left]. right.
  apply uvt_point_Some in Hc as (u & v & tv & _ & _ & ->).
  eexists. split; [done|]. pose proof (direction_deg_range u v).
  split; [apply round_half_even_ge|apply round_half_even_le]; lra.
Qed.

Lemma stored_direction_is_within_0_360_witness :
  get2 [[Fin 270]] 0 0 = Some NaN
  ∨ ∃ n, get2 [[Fin 270]] 0 0 = Some (Fin (IZR n)) ∧ (0 ≤ n ≤ 360)%Z.
Proof.
  exact (stored_direction_is_within_0_360
    [[[Fin 0]]] [[[Fin 2.5]]] [[[Fin 0]]] [[[Fin 273.15]]] 0
    (Fields [[Fin 0]] [[Fin 2]] [[Fin 270]]) (1, 1) 0 0
    uvt_fields_tie_example eq_refl (Nat.lt_0_succ 0) (Nat.lt_0_succ 0)).
Defined.

(** ** The CSV files of the temperature variant *)

(** Every cell of the three arrays is NaN or holds an integer. *)
Lemma stored_cells_are_integers hgt_3d u_3d v_3d t_grbs fl s shape i j :
  uvt_fields hgt_3d u_3d v_3d t_grbs fl = Ok s →
  lats_shape hgt_3d = Ok shape → i < shape.1 → j < shape.2 →
  (get2 (temp_2d s) i j = Some NaN ∧ get2 (speed_2d s) i j = Some NaN
   ∧ get2 (dir_2d s) i j = Some NaN)
  ∨ ∃ t sp d, get2 (temp_2d s) i j = Some (Fin (IZR t))
              ∧ get2 (speed_2d s) i j = Some (Fin (IZR sp))
              ∧ get2 (dir_2d s) i j = Some (Fin (IZR d)).
Proof.
  intros Hrun Hshape Hi Hj.
  apply uvt_fields_cells in Hrun as (shape' & Hshape' & _ & Hcells).
  rewrite Hshape in Hshape'. injection Hshape' as <-.
  destruct (Hcells i j Hi Hj) as (c & Hc & -> & -> & ->).
  destruct c as [[[t sp] d]|]; [|by left]. right.
  apply uvt_point_Some in Hc as (u & v & tv & -> & -> & ->).
  by eexists _, _, _.
Qed.

(** X7: the second [int(round(...))] applied when a file is written
    changes nothing: a cell of a written file is empty where the array
    holds NaN and otherwise holds the very integer stored in the array. *)
Theorem csv_files_hold_the_stored_integers
    hgt_3d u_3d v_3d t_grbs fl s shape i j :
  uvt_fields hgt_3d u_3d v_3d t_grbs fl = Ok s →
  lats_shape hgt_3d = Ok shape → i < shape.1 → j < shape.2 →
  (get2 (temp_2d s) i j = Some NaN
   ∧ get2 (csv_rows (write_csv fl Temp (temp_2d s))) i j = Some None
   ∧ get2 (csv_rows (write_csv fl Dir (dir_2d s))) i j = Some None
   ∧ get2 (csv_rows (write_csv fl Spd (speed_2d s))) i j = Some None)
  ∨ ∃ t sp d,
      get2 (temp_2d s) i j = Some (Fin (IZR t))
      ∧ get2 (speed_2d s) i j = Some (Fin (IZR sp))
      ∧ get2 (dir_2d s) i j = Some (Fin (IZR d))
      ∧ get2 (csv_rows (write_csv fl Temp (temp_2d s))) i j = Some (Some t)
      ∧ get2 (csv_rows (write_csv fl Dir (dir_2d s))) i j = Some (Some d)
      ∧ get2 (csv_rows (write_csv fl Spd (speed_2d s))) i j
        = Some (Some sp).
Proof.
  intros Hrun Hshape Hi Hj. unfold write_csv. simpl.
  rewrite !get2_map_2d.
  destruct (stored_cells_are_integers _ _ _ _ _ _ _ i j Hrun Hshape Hi Hj)
    as [(-> & -> & ->)|(t & sp & d & -> & -> & ->)].
  - by left.
  - right. exists t, sp, d. simpl. by rewrite !round_half_even_IZR.
Qed.

Lemma csv_files_hold_the_stored_integers_witness :
  let s := Fields [[Fin 0]] [[Fin 2]] [[Fin 270]] in
  (get2 (temp_2d s) 0 0 = Some NaN
   ∧ get2 (csv_rows (write_csv 0 Temp (temp_2d s))) 0 0 = Some None
   ∧ get2 (csv_rows (write_csv 0 Dir (dir_2d s))) 0 0 = Some None
   ∧ get2 (csv_rows (write_csv 0 Spd (speed_2d s))) 0 0 = Some None)
  ∨ ∃ t sp d,
      get2 (temp_2d s) 0 0 = Some (Fin (IZR t))
      ∧ get2 (speed_2d s) 0 0 = Some (Fin (IZR sp))
      ∧ get2 (dir_2d s) 0 0 = Some (Fin (IZR d))
      ∧ get2 (csv_rows (write_csv 0 Temp (temp_2d s))) 0 0 = Some (Some t)
      ∧ get2 (csv_rows (write_csv 0 Dir (dir_2d s))) 0 0 = Some (Some d)
      ∧ get2 (csv_rows (write_csv 0 Spd (speed_2d s))) 0 0
        = Some (Some sp).
Proof.
  exact (csv_files_hold_the_stored_integers
    [[[Fin 0]]] [[[Fin 2.5]]] [[[Fin 0]]] [[[Fin 273.15]]] 0
    (Fields [[Fin 0]] [[Fin 2]] [[Fin 270]]) (1, 1) 0 0
    uvt_fields_tie_example eq_refl (Nat.lt_0_succ 0) (Nat.lt_0_succ 0)).
Defined.

(** X8: in a completed pass a point is left blank exactly when one of its
    four profiles holds a NaN. *)
Theorem cell_is_blank_iff_profile_has_nan
    hgt_3d u_3d v_3d t_grbs fl s shape i j
    profile_h profile_u profile_v profile_t :
  uvt_fields hgt_3d u_3d v_3d t_grbs fl = Ok s →
  lats_shape hgt_3d = Ok shape → i < shape.1 → j < shape.2 →
  column hgt_3d i j = Ok profile_h →
  column u_3d i j = Ok profile_u →
  column v_3d i j = Ok profile_v →
  column t_grbs i j = Ok profile_t →
  (get2 (temp_2d s) i j = Some NaN ∧ get2 (speed_2d s) i j = Some NaN
   ∧ get2 (dir_2d s) i j = Some NaN)
  ↔ any_isnan profile_h || any_isnan profile_u
    || any_isnan profile_v || any_isnan profile_t = true.
Proof.
  intros Hrun Hshape Hi Hj Hh Hu Hv Ht. split.
  - intros (Gt & _ & _).
    destruct (any_isnan profile_h) eqn:Nh; [done|].
    destruct (any_isnan profile_u) eqn:Nu; [done|].
    destruct (any_isnan profile_v) eqn:Nv; [done|].
    destruct (any_isnan profile_t) eqn:Nt; [done|]. exfalso.
    destruct (uvt_fields_complete hgt_3d u_3d v_3d t_grbs fl s shape i j
                profile_h profile_u profile_v profile_t)
      as (u & v & t & _ & _ & _ & Gt' & _); try done.
    congruence.
  - intros Hnan.
    apply (uvt_nan_point_missing _ _ _ _ _ _ _ i j Hrun Hshape Hi Hj).
    destruct (any_isnan profile_h) eqn:Nh; [exists profile_h; tauto|].
    destruct (any_isnan profile_u) eqn:Nu; [exists profile_u; tauto|].
    destruct (any_isnan profile_v) eqn:Nv; [exists profile_v; tauto|].
    exists profile_t. tauto.
Qed.

Lemma cell_is_blank_iff_profile_has_nan_witness :
  (get2 [[Fin 0]] 0 0 = Some NaN ∧ get2 [[Fin 2]] 0 0 = Some NaN
   ∧ get2 [[Fin 270]] 0 0 = Some NaN)
  ↔ any_isnan [Fin 0] || any_isnan [Fin 2.5]
    || any_isnan [Fin 0] || any_isnan [Fin 273.15] = true.
Proof.
  exact (cell_is_blank_iff_profile_has_nan
    [[[Fin 0]]] [[[Fin 2.5]]] [[[Fin 0]]] [[[Fin 273.15]]] 0
    (Fields [[Fin 0]] [[Fin 2]] [[Fin 270]]) (1, 1) 0 0
    [Fin 0] [Fin 2.5] [Fin 0] [Fin 273.15]
    uvt_fields_tie_example eq_refl (Nat.lt_0_succ 0) (Nat.lt_0_succ 0)
    eq_refl eq_refl eq_refl eq_refl).
Defined.

Lemma uvt_levels_keys fl_3d u_3d v_3d t_3d shape fls files0 files :
  uvt_levels fl_3d u_3d v_3d t_3d shape fls files0 = (files, Ok ()) →
  file_key <$> files
  = (file_key <$> files0)
    ++ (fls ≫= λ fl, [(fl, Temp); (fl, Dir); (fl, Spd)]).
Proof.
  revert files0. induction fls as [|fl fls IH]; intros files0; simpl.
  - intros [= <-]. by rewrite app_nil_r.
  - destruct (uvt_level _ _ _ _ _ _) as [s|e]; [|done].
    intros Hrun. rewrite (IH _ Hrun), fmap_app, <- app_assoc. done.
Qed.

(** X9: a completed run of the temperature variant has written exactly
    three files for each of the 51 target levels, 153 in all, in the order
    temperature, direction, speed, by increasing level. *)
Theorem completed_run_writes_three_files_per_level
    hgt_3d u_3d v_3d t_grbs files :
  interpolate_uv_temp_at_flight_levels hgt_3d u_3d v_3d t_grbs
    = (files, Ok ()) →
  file_key <$> files
    = (fl_target ≫= λ fl, [(fl, Temp); (fl, Dir); (fl, Spd)])
  ∧ length files = 153.
Proof.
  unfold interpolate_uv_temp_at_flight_levels.
  destruct (lats_shape hgt_3d) as [shape|e]; [|done]. intros Hrun.
  apply uvt_levels_keys in Hrun. simpl in Hrun.
  split; [done|].
  apply (f_equal (@length _)) in Hrun. by rewrite length_fmap in Hrun.
Qed.

Lemma completed_run_writes_three_files_per_level_witness :
  ∃ files,
    interpolate_uv_temp_at_flight_levels
      [[[Fin 0]]] [[[Fin 2.5]]] [[[Fin 0]]] [[[Fin 273.15]]] = (files, Ok ())
    ∧ file_key <$> files
      = (fl_target ≫= λ fl, [(fl, Temp); (fl, Dir); (fl, Spd)])
    ∧ length files = 153.
Proof.
  destruct (uvt_run_total [[[Fin 0]]] [[[Fin 2.5]]] [[[Fin 0]]]
              [[[Fin 273.15]]]) as [files Hrun].
  { intros fl _. rewrite uvt_fields_single. by eexists. }
  exists files. split; [exact Hrun|].
  exact (completed_run_writes_three_files_per_level _ _ _ _ files Hrun).
Defined.

(** ** The dictionary of the U/V variant *)

Lemma elem_of_fl_target (fl : Z) :
  fl ∈ fl_target ↔ (0 ≤ fl ≤ 500)%Z ∧ (fl mod 10 = 0)%Z.
Proof.
  unfold fl_target. rewrite list_elem_of_fmap. split.
  - intros (k & -> & Hk). apply elem_of_seq in Hk.
    split; [lia|]. rewrite Z.mul_comm. apply Z_mod_mult.
  - intros [Hr Hm]. exists (Z.to_nat (fl / 10)). split.
    + rewrite Z2Nat.id by (apply Z.div_pos; lia).
      rewrite (Z.div_mod fl 10) at 1 by lia. lia.
    + apply elem_of_seq.
      assert (fl / 10 ≤ 50)%Z by (apply Z.div_le_upper_bound; lia).
      assert (0 ≤ fl / 10)%Z by (apply Z.div_pos; lia). lia.
Qed.

(** X10: the dictionary returned by the U/V variant has an entry for a
    key exactly when the key is a multiple of 10 from 0 to 500. *)
Theorem uv_result_keys_are_the_ladder uninit hgt_3d u_3d v_3d m (fl : Z) :
  interpolate_uv_at_flight_levels uninit hgt_3d u_3d v_3d = Ok m →
  is_Some (m !! fl) ↔ (0 ≤ fl ≤ 500)%Z ∧ (fl mod 10 = 0)%Z.
Proof.
  intros Hrun. rewrite <- elem_of_fl_target.
  pose proof (uv_run_entries _ _ _ _ m Hrun fl) as H.
  destruct (decide (fl ∈ fl_target)) as [Hin|Hin].
  - destruct H as (s & _ & ->). split; [done|by eexists].
  - rewrite H. split; [by intros [? [=]]|done].
Qed.

Lemma uv_result_keys_are_the_ladder_witness :
  ∃ m, interpolate_uv_at_flight_levels (Fin 0)
         [[[Fin 0]]] [[[Fin 2.5]]] [[[Fin 0]]] = Ok m
       ∧ (is_Some (m !! 370%Z)
          ↔ (0 ≤ 370 ≤ 500)%Z ∧ (370 mod 10 = 0)%Z).
Proof.
  destruct (uv_run_total (Fin 0) [[[Fin 0]]] [[[Fin 2.5]]] [[[Fin 0]]])
    as [m Hm].
  { intros fl _. rewrite uv_fields_single. by eexists. }
  exists m. split; [exact Hm|].
  exact (uv_result_keys_are_the_ladder _ _ _ _ m 370 Hm).
Defined.

(** ** Grid points do not influence one another *)

(** X11: the values stored at a grid point depend on the four profiles at
    that point only: two completed passes over grids that agree there
    store the same temperature, speed and direction there. *)
Theorem point_output_depends_on_its_own_profiles
    hgt_3d u_3d v_3d t_grbs hgt_3d' u_3d' v_3d' t_grbs'
    fl s s' shape shape' i j :
  uvt_fields hgt_3d u_3d v_3d t_grbs fl = Ok s →
  uvt_fields hgt_3d' u_3d' v_3d' t_grbs' fl = Ok s' →
  lats_shape hgt_3d = Ok shape → lats_shape hgt_3d' = Ok shape' →
  i < shape.1 → j < shape.2 → i < shape'.1 → j < shape'.2 →
  column hgt_3d i j = column hgt_3d' i j →
  column u_3d i j = column u_3d' i j →
  column v_3d i j = column v_3d' i j →
  column t_grbs i j = column t_grbs' i j →
  get2 (temp_2d s) i j = get2 (temp_2d s') i j
  ∧ get2 (speed_2d s) i j = get2 (speed_2d s') i j
  ∧ get2 (dir_2d s) i j = get2 (dir_2d s') i j.
Proof.
  intros Hrun Hrun' Hsh Hsh' Hi Hj Hi' Hj' Eh Eu Ev Et.
  apply uvt_fields_cells in Hrun as (sh & E & _ & Hcells).
  rewrite Hsh in E. injection E as <-.
  apply uvt_fields_cells in Hrun' as (sh' & E & _ & Hcells').
  rewrite Hsh' in E. injection E as <-.
  destruct (Hcells i j Hi Hj) as (c & Hc & -> & -> & ->).
  destruct (Hcells' i j Hi' Hj') as (c' & Hc' & -> & -> & ->).
  enough (c = c') as -> by done.
  unfold uvt_point in Hc, Hc'. rewrite !column_map_3d in Hc, Hc'.
  rewrite Eh, Eu, Ev, Et in Hc. rewrite Hc in Hc'. by injection Hc'.
Qed.

Lemma point_output_depends_on_its_own_profiles_witness :
  ∃ s s',
    uvt_fields [[[Fin 0; Fin 10]]] [[[Fin 2.5; Fin 1]]] [[[Fin 0; Fin 1]]]
               [[[Fin 273.15; Fin 280]]] 0 = Ok s
    ∧ uvt_fields [[[Fin 0; NaN]]] [[[Fin 2.5; Fin 7]]] [[[Fin 0; Fin 9]]]
                 [[[Fin 273.15; Fin 250]]] 0 = Ok s'
    ∧ get2 (temp_2d s) 0 0 = get2 (temp_2d s') 0 0
    ∧ get2 (speed_2d s) 0 0 = get2 (speed_2d s') 0 0
    ∧ get2 (dir_2d s) 0 0 = get2 (dir_2d s') 0 0.
Proof.
  assert (∀ h u v t : array3,
            well_shaped 1 (1, 2) h → well_shaped 1 (1, 2) u →
            well_shaped 1 (1, 2) v → well_shaped 1 (1, 2) t →
            lats_shape h = Ok (1, 2) →
            is_Ok (uvt_fields h u v t 0)) as Hok.
  { intros h u v t Wh Wu Wv Wt Hsh. unfold uvt_fields. rewrite Hsh.
    cbn [mbind result_bind]. apply uvt_level_total. intros i j Hi Hj.
    by eapply (uvt_point_well_shaped 1 (1, 2)); [lia|..]. }
  destruct (Hok [[[Fin 0; Fin 10]]] [[[Fin 2.5; Fin 1]]] [[[Fin 0; Fin 1]]]
                [[[Fin 273.15; Fin 280]]]) as [s Hs];
    try (split; [done|]; repeat constructor); [done|].
  destruct (Hok [[[Fin 0; NaN]]] [[[Fin 2.5; Fin 7]]] [[[Fin 0; Fin 9]]]
                [[[Fin 273.15; Fin 250]]]) as [s' Hs'];
    try (split; [done|]; repeat constructor); [done|].
  exists s, s'. split; [exact Hs|]. split; [exact Hs'|].
  apply (point_output_depends_on_its_own_profiles _ _ _ _ _ _ _ _ 0 s s'
           (1, 2) (1, 2) 0 0 Hs Hs'); try done; simpl; lia.
Defined.

(** ** What np.empty_like leaves in the arrays does not matter *)

Lemma array2_ext {A} shape (a b : array2 A) :
  has_shape shape a → has_shape shape b →
  (∀ i j, i < shape.1 → j < shape.2 → get2 a i j = get2 b i j) →
  a = b.
Proof.
  intros [La Ra] [Lb Rb] Hget. apply list_eq. intros i.
  destruct (decide (i < shape.1)) as [Hi|Hi].
  - destruct (lookup_lt_is_Some_2 a i) as [ra Hra]; [lia|].
    destruct (lookup_lt_is_Some_2 b i) as [rb Hrb]; [lia|].
    rewrite Hra, Hrb. f_equal. apply list_eq. intros j.
    pose proof (Forall_lookup_1 _ _ _ _ Ra Hra) as Lra.
    pose proof (Forall_lookup_1 _ _ _ _ Rb Hrb) as Lrb. simpl in *.
    destruct (decide (j < shape.2)) as [Hj|Hj].
    + specialize (Hget i j Hi Hj). unfold get2 in Hget.
      by rewrite Hra, Hrb in Hget.
    + rewrite !lookup_ge_None_2 by lia. done.
  - rewrite !lookup_ge_None_2 by lia. done.
Qed.

Lemma for_each_rel {A S1 S2} (R : S1 → S2 → Prop)
    (body1 : A → S1 → result S1) (body2 : A → S2 → result S2)
    (l : list A) (s1 : S1) (s2 : S2) :
  R s1 s2 →
  (∀ x a b, R a b →
     match body1 x a, body2 x b with
     | Ok a', Ok b' => R a' b'
     | Raise e, Raise e' => e = e'
     | _, _ => False
     end) →
  match for_each l body1 s1, for_each l body2 s2 with
  | Ok a, Ok b => R a b
  | Raise e, Raise e' => e = e'
  | _, _ => False
  end.
Proof.
  intros HR Hstep. revert s1 s2 HR.
  induction l as [|x l IH]; intros s1 s2 HR; simpl; [done|].
  specialize (Hstep x s1 s2 HR).
  destruct (body1 x s1), (body2 x s2); simpl; try done. by apply IH.
Qed.

Lemma for_each_ext {A S} (body1 body2 : A → S → result S) (l : list A) (s : S) :
  (∀ x s, body1 x s = body2 x s) →
  for_each l body1 s = for_each l body2 s.
Proof.
  intros Hext. revert s. induction l as [|x l IH]; intros s; simpl; [done|].
  rewrite Hext. destruct (body2 x s); simpl; [apply IH|done].
Qed.

Lemma uv_level_uninit fl_3d u_3d v_3d (uninit uninit' : f64) shape fl :
  uv_level fl_3d u_3d v_3d uninit shape fl
  = uv_level fl_3d u_3d v_3d uninit' shape fl.
Proof.
  pose proof (for_each_rel (λ _ _, True)
    (uv_store fl_3d u_3d v_3d fl) (uv_store fl_3d u_3d v_3d fl)
    (grid_points shape)
    (np_full shape uninit, np_full shape uninit)
    (np_full shape uninit', np_full shape uninit') I) as H.
  fold (uv_level fl_3d u_3d v_3d uninit shape fl) in H.
  fold (uv_level fl_3d u_3d v_3d uninit' shape fl) in H.
  destruct (uv_level fl_3d u_3d v_3d uninit shape fl) as [s|e] eqn:E1,
    (uv_level fl_3d u_3d v_3d uninit' shape fl) as [s'|e'] eqn:E2.
  - destruct (uv_level_cells _ _ _ _ _ _ _ E1) as (A1 & A2 & C).
    destruct (uv_level_cells _ _ _ _ _ _ _ E2) as (B1 & B2 & C').
    f_equal. destruct s as [a1 a2], s' as [b1 b2]. simpl in *.
    f_equal; apply (array2_ext shape); try done; intros i j Hi Hj;
      destruct (C i j Hi Hj) as (u & v & Hp & G1 & G2);
      destruct (C' i j Hi Hj) as (u' & v' & Hp' & G1' & G2'); congruence.
  - exfalso. apply H. intros x a b _. unfold uv_store.
    destruct (uv_point _ _ _ _ _ _) as [[u v]|e]; simpl; done.
  - exfalso. apply H. intros x a b _. unfold uv_store.
    destruct (uv_point _ _ _ _ _ _) as [[u v]|e0]; simpl; done.
  - f_equal. apply H. intros x a b _. unfold uv_store.
    destruct (uv_point _ _ _ _ _ _) as [[u v]|e0]; simpl; done.
Qed.

(** X12: the result of the U/V variant does not depend on what the
    uninitialised arrays of [np.empty_like] hold: every cell is
    overwritten before the arrays are read. *)
Theorem uninitialised_cells_never_reach_the_result
    (uninit uninit' : f64) hgt_3d u_3d v_3d :
  interpolate_uv_at_flight_levels uninit hgt_3d u_3d v_3d
  = interpolate_uv_at_flight_levels uninit' hgt_3d u_3d v_3d.
Proof.
  unfold interpolate_uv_at_flight_levels.
  destruct (lats_shape hgt_3d) as [shape|e]; [|done].
  cbn [mbind result_bind]. apply for_each_ext. intros fl m.
  unfold uv_levels. by rewrite (uv_level_uninit _ _ _ uninit uninit').
Qed.

(** ** The integer cast of the U/V variant *)





(** ** The convention of the wind direction *)






(** ** Heights and flight levels *)

Lemma fle_to_flight_level (a b : f64) :
  fle a b = true → fle (to_flight_level a) (to_flight_level b) = true.
Proof.
  destruct a as [|x], b as [|y]; try done.
  rewrite !to_flight_level_fin. unfold fle. rewrite !bool_decide_eq_true.
  intros Hxy. rewrite literal_3_281.
  apply round_binary64_mono.
  apply Rmult_le_compat_r; [lra|].
  apply round_binary64_mono.
  apply Rmult_le_compat_r; [lra|done].
Qed.

(** Two neighbouring binary64 heights near 1500 m, and the flight level
    both are converted to. *)
Lemma flight_level_near_1500 (h : R) :
  h = (6597069766656004 / 4398046511104)%R
  ∨ h = (6597069766656005 / 4398046511104)%R →
  to_flight_level (Fin h) = Fin (6926395489407473 / 140737488355328).
Proof.
  intros [-> | ->]; rewrite to_flight_level_fin, literal_3_281.
  all: eval_binary64 12%Z 5411246476099588%Z.
  all: eval_binary64 5%Z 6926395489407473%Z.
  all: f_equal; lra.
Qed.

(** X15: the conversion of heights to flight levels, carried out in
    binary64, never inverts the order of two heights and keeps NaN where
    it was: a profile whose heights do not increase with the level index
    gives flight levels that do not increase either.  Neighbouring
    heights may be converted to one and the same flight level. *)
Theorem flight_levels_keep_the_order_of_heights (profile_h : array1) :
  non_increasing profile_h = true →
  non_increasing (to_flight_level <$> profile_h) = true
  ∧ any_isnan (to_flight_level <$> profile_h) = any_isnan profile_h.
Proof.
  intros Hh. split; [|apply any_isnan_fmap, isnan_to_flight_level].
  induction profile_h as [|a [|b p] IH]; [done..|].
  cbn [non_increasing] in Hh. apply andb_true_iff in Hh as [Hab Hp].
  rewrite !fmap_cons in *. cbn [non_increasing].
  apply andb_true_iff. split; [|by apply IH].
  unfold fge in *. by apply fle_to_flight_level.
Qed.

Lemma flight_levels_keep_the_order_of_heights_witness :
  let lower := Fin (6597069766656004 / 4398046511104) in
  let upper := Fin (6597069766656005 / 4398046511104) in
  strictly_decreasing [upper; lower] = true
  ∧ to_flight_level upper = to_flight_level lower
  ∧ non_increasing (to_flight_level <$> [upper; lower]) = true
  ∧ any_isnan (to_flight_level <$> [upper; lower])
    = any_isnan [upper; lower].
Proof.
  intros lower upper.
  assert (non_increasing [upper; lower] = true) as Hh.
  { unfold upper, lower. cbn -[bool_decide]. rsolve. reflexivity. }
  split; [unfold upper, lower; cbn -[bool_decide]; rsolve; reflexivity|].
  split.
  - unfold upper, lower.
    rewrite !flight_level_near_1500; [done|by left|by right].
  - exact (flight_levels_keep_the_order_of_heights [upper; lower] Hh).
Defined.
